(** * extract_frames_and_boxes_h36m: mask decoding and frame sampling

    A shallow embedding of [datasets/extract_frames_and_boxes_h36m.py].
    The script turns the Human3.6M bounding-box masks into arrays of
    [left, top, width, height] rows and saves every 5th and every 64th
    frame of a video as an image.

    Python exceptions are values of [exn]; pure code returns [result],
    code that touches the file system runs in the monad [M] over [world].
    Paths are the strings the script passes to the operating system. *)

From Stdlib Require Import ZArith Lia String Ascii DecimalString DecimalNat
  DecimalFacts Sorted.
From stdpp Require Import gmap strings list.

Local Open Scope nat_scope.

(** ** Exceptions and results *)

Inductive exn : Type :=
  | IndexError
  | KeyError
  | ValueError
  | OSError
  | FileNotFoundError
  | FileExistsError
  | NotADirectoryError
  | IsADirectoryError.

Definition result (A : Type) : Type := exn + A.

Definition Ok {A} (a : A) : result A := inr a.
Definition raise {A} (e : exn) : result A := inl e.

Definition rbind {A B} (r : result A) (k : A → result B) : result B :=
  match r with
  | inl e => inl e
  | inr a => k a
  end.

Notation "'let?' x ':=' r 'in' k" := (rbind r (fun x => k))
  (at level 10, x pattern, r at level 100, k at level 200).

(** [try: body except IndexError: handler] *)
Definition try_except_IndexError {A} (body : result A) (handler : result A)
  : result A :=
  match body with
  | inl IndexError => handler
  | other => other
  end.

(** ** NumPy arrays of rank two

    A C-contiguous buffer with its shape; [item a i j] is [a[i, j]]. *)

Record ndarray : Type := mk_ndarray {
  shape0 : nat;
  shape1 : nat;
  buf : list Z
}.

Definition item (a : ndarray) (i j : nat) : Z :=
  default 0%Z (buf a !! (i * shape1 a + j)).

(** [a.T] *)
Definition transpose (a : ndarray) : ndarray :=
  {| shape0 := shape1 a;
     shape1 := shape0 a;
     buf := i ← seq 0 (shape1 a); (fun j => item a j i) <$> seq 0 (shape0 a) |}.

Definition truthy (z : Z) : bool := negb (z =? 0)%Z.

(** [np.any(a, axis=0)]: one flag per column. *)
Definition any_axis0 (a : ndarray) : list bool :=
  (fun j => existsb (fun i => truthy (item a i j)) (seq 0 (shape0 a)))
    <$> seq 0 (shape1 a).

(** [np.any(a, axis=1)]: one flag per row. *)
Definition any_axis1 (a : ndarray) : list bool :=
  (fun i => existsb (fun j => truthy (item a i j)) (seq 0 (shape1 a)))
    <$> seq 0 (shape0 a).

Fixpoint nonzero_from (k : nat) (v : list bool) : list nat :=
  match v with
  | [] => []
  | b :: v' => if b then k :: nonzero_from (S k) v' else nonzero_from (S k) v'
  end.

(** [np.nonzero(v)[0]] for a vector [v]. *)
Definition nonzero (v : list bool) : list nat := nonzero_from 0 v.

(** [ix[[0, -1]]]: the first and the last element, [IndexError] when
    [ix] is empty. *)
Definition first_and_last (ix : list nat) : result (nat * nat) :=
  match head ix, last ix with
  | Some x, Some y => Ok (x, y)
  | _, _ => raise IndexError
  end.

(** ** Bounding boxes *)

(** What NumPy stores when an integer is assigned to an element of
    dtype float32: the nearest number with a significand of 24 bits,
    ties going to the even significand.  The result is an integer
    again; every integer of magnitude up to 2^24 is stored as it is. *)
Definition float32_of_int (n : Z) : Z :=
  let a := Z.abs n in
  let s := (Z.log2 a - 23)%Z in
  if (s <=? 0)%Z then n
  else
    let q := (a / 2 ^ s)%Z in
    let r := (a mod 2 ^ s)%Z in
    let half := (2 ^ (s - 1))%Z in
    let q' :=
      if (half <? r)%Z || ((r =? half)%Z && Z.odd q) then (q + 1)%Z else q in
    (Z.sgn n * (q' * 2 ^ s))%Z.

(** A row [left, top, width, height] of the output array, whose shape
    is [n, 4] and whose dtype is float32: the fields are the values of
    the four stored numbers. *)
Record bbox : Type := Box {
  box_left : Z;
  box_top : Z;
  box_width : Z;
  box_height : Z
}.

(** [[0, 0, 0, 0]] *)
Definition degenerate : bbox := Box 0 0 0 0.

(** The row that the assignment of line 42 stores. *)
Definition stored_row (xmin xmax ymin ymax : nat) : bbox :=
  Box (float32_of_int (Z.of_nat xmin))
      (float32_of_int (Z.of_nat ymin))
      (float32_of_int (Z.of_nat xmax - Z.of_nat xmin + 1))
      (float32_of_int (Z.of_nat ymax - Z.of_nat ymin + 1)).

(** Lines 40-42, the body of the [try], for a mask of rank two. *)
Definition tight_box (mask : ndarray) : result bbox :=
  let? (xmin, xmax) := first_and_last (nonzero (any_axis0 mask)) in
  let? (ymin, ymax) := first_and_last (nonzero (any_axis1 mask)) in
  Ok (stored_row xmin xmax ymin ymax).

(** Lines 39-44, the [try] with its handler, for a mask of rank two. *)
Definition bbox_of_mask (mask : ndarray) : result bbox :=
  try_except_IndexError (tight_box mask) (Ok degenerate).

(** ** Arrays of any rank

    What [np.array(obj)] returns for an object of the file, taken to be
    an array of numbers as the masks of the data set are: a shape and
    the elements in C order.  An element is kept as an integer that is
    zero exactly when the element is; lines 40-41 ask nothing else of
    it. *)

Record dataset : Type := mk_dataset {
  dims : list nat;
  data : list Z
}.

(** The array of rank two that a dataset of two axes is. *)
Definition matrix (obj : dataset) : option ndarray :=
  match dims obj with
  | [r; c] => Some {| shape0 := r; shape1 := c; buf := data obj |}
  | _ => None
  end.

Definition dataset_of (a : ndarray) : dataset :=
  {| dims := [shape0 a; shape1 a]; data := buf a |}.

(** The indices of an array of the given shape, in C order. *)
Fixpoint indices (shape : list nat) : list (list nat) :=
  match shape with
  | [] => [[]]
  | d :: shape' => i ← seq 0 d; cons i <$> indices shape'
  end.

(** The place of the element with index [idx] in the buffer. *)
Fixpoint offset (acc : nat) (shape idx : list nat) : nat :=
  match shape, idx with
  | d :: shape', i :: idx' => offset (acc * d + i) shape' idx'
  | _, _ => acc
  end.

Definition element (a : dataset) (idx : list nat) : Z :=
  default 0%Z (data a !! offset 0 (dims a) idx).

(** [a.T]: the axes in reverse order. *)
Definition transpose_nd (a : dataset) : dataset :=
  {| dims := reverse (dims a);
     data := (fun idx => element a (reverse idx))
               <$> indices (reverse (dims a)) |}.

(** An array of flags: its shape, and every index with its flag in C
    order. *)
Record flags : Type := mk_flags {
  flag_dims : list nat;
  flag_list : list (list nat * bool)
}.

(** [np.any(a, axis=0)]: the flag of every index of the remaining
    axes.  NumPy lets the axis pass for an array of rank zero, whose
    result is of rank zero again. *)
Definition any_axis0_nd (a : dataset) : flags :=
  match dims a with
  | n0 :: rest =>
      {| flag_dims := rest;
         flag_list :=
           (fun idx =>
              (idx, existsb (fun i => truthy (element a (i :: idx))) (seq 0 n0)))
             <$> indices rest |}
  | [] => {| flag_dims := []; flag_list := [([], truthy (element a []))] |}
  end.

(** [np.any(a, axis=1)] for an array of rank two or more.  Line 41 is
    not reached for an array of lower rank: line 40 raises before. *)
Definition any_axis1_nd (a : dataset) : flags :=
  match dims a with
  | n0 :: n1 :: rest =>
      {| flag_dims := n0 :: rest;
         flag_list :=
           i ← seq 0 n0;
           (fun idx =>
              (i :: idx,
               existsb (fun j => truthy (element a (i :: j :: idx))) (seq 0 n1)))
             <$> indices rest |}
  | _ => {| flag_dims := []; flag_list := [] |}
  end.

(** [np.nonzero(b)[0]]: the first coordinate of every set flag, in C
    order.  [np.nonzero] refuses an array of rank zero with
    [ValueError] (NumPy 2.1 and later). *)
Definition nonzero_nd (b : flags) : result (list nat) :=
  match flag_dims b with
  | [] => raise ValueError
  | _ :: _ =>
      Ok (omap (fun p : list nat * bool => if p.2 then head p.1 else None)
               (flag_list b))
  end.

(** Lines 40-42, the body of the [try], for a mask of any rank. *)
Definition tight_box_nd (mask : dataset) : result bbox :=
  let? xs := nonzero_nd (any_axis0_nd mask) in
  let? (xmin, xmax) := first_and_last xs in
  let? ys := nonzero_nd (any_axis1_nd mask) in
  let? (ymin, ymax) := first_and_last ys in
  Ok (stored_row xmin xmax ymin ymax).

(** Lines 39-44: the [try] with its handler. *)
Definition box_of_entry (mask : dataset) : result bbox :=
  try_except_IndexError (tight_box_nd mask) (Ok degenerate).

(** ** The annotation container

    An HDF5 file as the script reads it: the first column of the
    dataset [Masks] (absent when the file has no such dataset) and the
    objects of the group [#refs#] by reference (absent when the file has
    no such group). *)

Definition href : Type := nat.

Record h5file : Type := mk_h5file {
  h5_Masks : option (list href);
  h5_objects : option (gmap href dataset)
}.

(** [f['Masks'][:, 0]] *)
Definition read_Masks (f : h5file) : result (list href) :=
  match h5_Masks f with
  | Some refs => Ok refs
  | None => raise KeyError
  end.

(** [np.array(f['#refs#'][ref])]: [KeyError] without the group; h5py
    raises [ValueError] for a reference that names no object. *)
Definition deref (f : h5file) (ref : href) : result dataset :=
  match h5_objects f with
  | None => raise KeyError
  | Some objects =>
      match objects !! ref with
      | Some obj => Ok obj
      | None => raise ValueError
      end
  end.

(** The loop of lines 37-44 over [enumerate(refs)], started at index
    [i] with the array [bboxes]. *)
Fixpoint decode_loop (f : h5file) (i : nat) (refs : list href)
    (bboxes : list bbox) : result (list bbox) :=
  match refs with
  | [] => Ok bboxes
  | ref :: refs' =>
      let? obj := deref f ref in
      let mask := transpose_nd obj in
      let? row := box_of_entry mask in
      decode_loop f (S i) refs' (<[i := row]> bboxes)
  end.

(** Lines 35-44.  [np.empty] returns an array of the requested shape
    whose rows hold whatever was in memory: [junk]. *)
Definition decode (junk : bbox) (f : h5file) : result (list bbox) :=
  let? refs := read_Masks f in
  let bboxes := replicate (length refs) junk in
  decode_loop f 0 refs bboxes.

(** The objects of the file that are arrays of rank two, by reference:
    the masks as the data set stores them. *)
Definition h5_refs (f : h5file) : gmap href ndarray :=
  match h5_objects f with
  | Some objects => omap matrix objects
  | None => ∅
  end.

(** ** What the masks contain *)

(** The nonzero pixels of a mask as (row, column) pairs, row by row. *)
Definition pixels (m : ndarray) : list (nat * nat) :=
  i ← seq 0 (shape0 m);
  j ← seq 0 (shape1 m);
  if bool_decide (item m i j ≠ 0%Z) then [(i, j)] else [].

(** The nonzero pixels span columns [c0..c1] and rows [r0..r1]: each of
    the four lines holds a nonzero pixel and none lies outside. *)
Definition spans (m : ndarray) (c0 c1 r0 r1 : nat) : Prop :=
  Exists (fun p => p.2 = c0) (pixels m) ∧
  Exists (fun p => p.2 = c1) (pixels m) ∧
  Exists (fun p => p.1 = r0) (pixels m) ∧
  Exists (fun p => p.1 = r1) (pixels m) ∧
  Forall (fun p => c0 ≤ p.2 ≤ c1 ∧ r0 ≤ p.1 ≤ r1) (pixels m).

Global Instance spans_dec m c0 c1 r0 r1 : Decision (spans m c0 c1 r0 r1).
Proof. unfold spans. apply _. Defined.

(** ** Paths

    [str.split('/')], [os.path] and the part of [pathlib.PurePosixPath]
    the script uses. *)

Fixpoint split_slash (s : string) : list string :=
  match s with
  | EmptyString => [""]
  | String c s' =>
      if Ascii.eqb c "/" then "" :: split_slash s'
      else match split_slash s' with
           | [] => [String c ""]
           | h :: t => String c h :: t
           end
  end.

Fixpoint join_slash (ps : list string) : string :=
  match ps with
  | [] => ""
  | [a] => a
  | a :: rest => a +:+ "/" +:+ join_slash rest
  end.

(** [os.path.basename]: what follows the last slash. *)
Definition basename (s : string) : string :=
  default "" (last (split_slash s)).

(** [s[:-4]] *)
Definition drop_last4 (s : string) : string :=
  String.substring 0 (String.length s - 4) s.

Definition starts_with_slash (s : string) : bool :=
  match s with
  | String c _ => Ascii.eqb c "/"
  | EmptyString => false
  end.

Fixpoint ends_with_slash (s : string) : bool :=
  match s with
  | EmptyString => false
  | String c EmptyString => Ascii.eqb c "/"
  | String _ s' => ends_with_slash s'
  end.

(** [os.path.join(a, b)] *)
Definition os_path_join (a b : string) : string :=
  if starts_with_slash b then b
  else if bool_decide (a = "") || ends_with_slash a then a +:+ b
  else a +:+ "/" +:+ b.

Record PurePath : Type := mk_path {
  root : string;
  parts : list string
}.

(** One slash, or two when the string starts with exactly two. *)
Definition path_root (s : string) : string :=
  match s with
  | String "/" (String "/" (String "/" _)) => "/"
  | String "/" (String "/" _) => "//"
  | String "/" _ => "/"
  | _ => ""
  end.

Definition is_part (c : string) : Prop := c ≠ "" ∧ c ≠ ".".

(** [pathlib.Path(s)] *)
Definition Path (s : string) : PurePath :=
  {| root := path_root s;
     parts := filter is_part (split_slash s) |}.

(** [str(p)] *)
Definition str (p : PurePath) : string :=
  match parts p with
  | [] => if bool_decide (root p = "") then "." else root p
  | ps => root p +:+ join_slash ps
  end.

(** [p.parents[k]] *)
Definition parents (p : PurePath) (k : nat) : result PurePath :=
  if decide (k < length (parts p))
  then Ok {| root := root p;
             parts := take (length (parts p) - S k) (parts p) |}
  else raise IndexError.

(** [p.parent] *)
Definition parent (p : PurePath) : PurePath :=
  {| root := root p; parts := take (length (parts p) - 1) (parts p) |}.

(** [p / s] *)
Definition truediv (p : PurePath) (s : string) : PurePath :=
  let q := Path s in
  if bool_decide (root q = "")
  then {| root := root p; parts := parts p ++ parts q |}
  else q.

(** [p.name] *)
Definition name (p : PurePath) : string := default "" (last (parts p)).

(** [s.rfind('.')] *)
Fixpoint rfind_dot (s : string) : option nat :=
  match s with
  | EmptyString => None
  | String c s' =>
      match rfind_dot s' with
      | Some i => Some (S i)
      | None => if Ascii.eqb c "." then Some 0 else None
      end
  end.

(** [p.stem]: the name without its last suffix. *)
Definition stem (p : PurePath) : string :=
  let n := name p in
  match rfind_dot n with
  | Some i =>
      if bool_decide (0 < i < String.length n - 1)
      then String.substring 0 i n else n
  | None => n
  end.

Fixpoint zeros (n : nat) : string :=
  match n with
  | 0 => ""
  | S n' => String "0" (zeros n')
  end.

(** [f'{i:06d}'] *)
Definition format_06d (i : nat) : string :=
  let s := NilEmpty.string_of_uint (Nat.to_uint i) in
  zeros (6 - String.length s) +:+ s.

(** ** The file system and the monad of effects *)

(** A decoded video frame: its pixel data. *)
Definition frame : Type := list Z.

Inductive content : Type :=
  | Mat (f : h5file)
  | Mp4 (frames : list frame)
  | Npy (a : list bbox)
  | Jpg (im : frame)
  | Blob (bytes : list Z).

Inductive node : Type :=
  | Dir
  | File (c : content).

(** What a run leaves behind, in the order it happened. *)
Inductive event : Type :=
  | Printed (line : string)
  | MadeDir (p : string)
  | Wrote (p : string) (c : content).

Record world : Type := mk_world {
  fs : gmap string node;
  trace : list event
}.

Definition M (A : Type) : Type := world → world * result A.

Definition ret {A} (a : A) : M A := fun w => (w, Ok a).

Definition bind {A B} (m : M A) (k : A → M B) : M B :=
  fun w =>
    match m w with
    | (w', inl e) => (w', inl e)
    | (w', inr a) => k a w'
    end.

Definition lift {A} (r : result A) : M A := fun w => (w, r).

Notation "'let!' x ':=' m 'in' k" := (bind m (fun x => k))
  (at level 10, x pattern, m at level 100, k at level 200).
Notation "m ';;' k" := (bind m (fun _ => k))
  (at level 100, k at level 200, right associativity).

Definition log (e : event) (w : world) : world :=
  {| fs := fs w; trace := trace w ++ [e] |}.

(** [print(line)] *)
Definition print (line : string) : M unit :=
  fun w => (log (Printed line) w, Ok tt).

(** [os.path.exists(p)] *)
Definition path_exists (p : string) : M bool :=
  fun w => (w, Ok (bool_decide (is_Some (fs w !! p)))).

(** Opening [p] for writing and storing [c] in it. *)
Definition write_file (p : string) (c : content) : M unit :=
  fun w =>
    match fs w !! p with
    | Some Dir => (w, raise IsADirectoryError)
    | _ => (log (Wrote p c) {| fs := <[p := File c]> (fs w); trace := trace w |},
            Ok tt)
    end.

(** [os.makedirs(r/done/todo, exist_ok=True)] once [r/done] is known to
    be in place: the missing directories are made from the top down; a
    regular file in the way raises. *)
Fixpoint makedirs_from (r : string) (done todo : list string) : M unit :=
  match todo with
  | [] => ret tt
  | c :: todo' =>
      let here := str {| root := r; parts := done ++ [c] |} in
      fun w =>
        match fs w !! here with
        | Some Dir => makedirs_from r (done ++ [c]) todo' w
        | None =>
            makedirs_from r (done ++ [c]) todo'
              (log (MadeDir here)
                   {| fs := <[here := Dir]> (fs w); trace := trace w |})
        | Some (File _) =>
            (w, raise (match todo' with
                       | [] => FileExistsError
                       | _ => NotADirectoryError
                       end))
        end
  end.

(** [os.makedirs(p, exist_ok=True)] *)
Definition makedirs (p : PurePath) : M unit :=
  makedirs_from (root p) [] (parts p).

(** [h5py.File(p, 'r')] *)
Definition h5py_File (p : string) : M h5file :=
  fun w =>
    match fs w !! p with
    | Some (File (Mat f)) => (w, Ok f)
    | Some _ => (w, raise OSError)
    | None => (w, raise FileNotFoundError)
    end.

(** [np.save(dst, a)]; the name built at line 47 ends in [.npy], so
    [np.save] adds no suffix of its own. *)
Definition np_save (dst : PurePath) (a : list bbox) : M unit :=
  write_file (str dst) (Npy a).

(** [imageio.get_reader(p, 'ffmpeg')]: the frames of the video. *)
Definition get_reader (p : string) : M (list frame) :=
  fun w =>
    match fs w !! p with
    | Some (File (Mp4 frames)) => (w, Ok frames)
    | Some _ => (w, raise OSError)
    | None => (w, raise FileNotFoundError)
    end.

(** [imageio.imwrite(p, im)] *)
Definition imwrite (p : string) (im : frame) : M unit :=
  write_file p (Jpg im).

(** ** extract_bounding_boxes *)

Definition dst_file_path (src_matfile_path : string) : result PurePath :=
  let filename := basename src_matfile_path in
  let? anc := parents (Path src_matfile_path) 2 in
  Ok (truediv anc ("BBoxes/" +:+ drop_last4 filename +:+ ".npy")).

Definition extract_bounding_boxes (junk : bbox) (src_matfile_path : string)
  : M unit :=
  print ("Processing " +:+ src_matfile_path);;
  let! f := h5py_File src_matfile_path in
  let! bboxes := lift (decode junk f) in
  let! dst := lift (dst_file_path src_matfile_path) in
  makedirs (parent dst);;
  np_save dst bboxes.

(** ** extract_frames *)

(** The test of line 61. *)
Definition selected (i_frame : nat) : bool :=
  (i_frame mod 5 =? 0) || (i_frame mod 64 =? 0).

(** Lines 62-63. *)
Definition frame_path (dst_folder_path : string) (i_frame : nat) : string :=
  os_path_join dst_folder_path ("frame_" +:+ format_06d i_frame +:+ ".jpg").

(** The loop of lines 60-65 over [enumerate(reader)], started at index
    [i_frame]. *)
Fixpoint frames_loop (dst_folder_path : string) (i_frame : nat)
    (reader : list frame) : M unit :=
  match reader with
  | [] => ret tt
  | im :: reader' =>
      (if selected i_frame then
         let dst_path := frame_path dst_folder_path i_frame in
         let! there := path_exists dst_path in
         if negb there then imwrite dst_path im else ret tt
       else ret tt);;
      frames_loop dst_folder_path (S i_frame) reader'
  end.

Definition dst_folder_path (src_video_path : string) : result PurePath :=
  let video_name := stem (Path src_video_path) in
  let? anc := parents (Path src_video_path) 1 in
  Ok (truediv (truediv anc "Images") video_name).

Definition extract_frames (src_video_path : string) : M unit :=
  print ("Processing " +:+ src_video_path);;
  let! dst := lift (dst_folder_path src_video_path) in
  makedirs dst;;
  let! reader := get_reader src_video_path in
  frames_loop (str dst) 0 reader.

(** ** main *)

Inductive exit_status : Type :=
  | Returned
  | SystemExit (code : Z)
  | Uncaught (e : exn).

Definition usage : string :=
  "Set the DATA_ROOT environment variable to the parent dir of the h36m directory.".

Section Orchestrator.
(** The two library calls [main] makes besides its own functions:
    [glob.glob(pattern, recursive=True)] and [pool.map(fn, items)] of
    a [multiprocessing.Pool()]; [junk] is what [np.empty] hands out. *)
Variable glob : string → world → list string.
Variable pool_map : (string → M unit) → list string → M unit.
Variable junk : bbox.

Definition main (environ : gmap string string) (w : world)
  : world * exit_status :=
  match environ !! "DATA_ROOT" with
  | None => (log (Printed usage) w, SystemExit 1)
  | Some data_root =>
      let bbox_paths :=
        glob (data_root +:+ "/h36m/**/ground_truth_bb/*.mat") w in
      match pool_map (extract_bounding_boxes junk) bbox_paths w with
      | (w1, inl e) => (w1, Uncaught e)
      | (w1, inr _) =>
          let video_paths :=
            glob (data_root +:+ "/h36m/**/Videos/*.mp4") w1 in
          match pool_map extract_frames video_paths w1 with
          | (w2, inl e) => (w2, Uncaught e)
          | (w2, inr _) => (w2, Returned)
          end
      end
  end.
End Orchestrator.

(** ** Vocabulary of the statements *)

(** The reference [ref] names an array of rank two of the file: a mask
    as the data set stores it. *)
Definition resolvable (f : h5file) (ref : href) : Prop :=
  is_Some (h5_refs f !! ref).

Global Instance resolvable_dec f ref : Decision (resolvable f ref).
Proof. unfold resolvable. apply _. Defined.

(** [row] is the box of the mask that [ref] points to. *)
Definition row_of (f : h5file) (ref : href) (row : bbox) : Prop :=
  ∃ stored, h5_refs f !! ref = Some stored ∧
            bbox_of_mask (transpose stored) = Ok row.

(** The reference [ref] names an array of rank two or more: a mask, or
    a stack of masks. *)
Definition mask_like (f : h5file) (ref : href) : Prop :=
  ∃ obj, deref f ref = Ok obj ∧ 2 ≤ length (dims obj).

(** [row] is what lines 38-44 store for the entry [ref]. *)
Definition entry_row (f : h5file) (ref : href) (row : bbox) : Prop :=
  ∃ obj, deref f ref = Ok obj ∧ box_of_entry (transpose_nd obj) = Ok row.

(** The paths and contents a trace wrote, in order. *)
Definition writes (t : list event) : list (string * content) :=
  omap (fun e => match e with
                 | Wrote p c => Some (p, c)
                 | _ => None
                 end) t.

Definition is_file (n : option node) : bool :=
  match n with
  | Some (File _) => true
  | _ => false
  end.

(** No regular file stands where [makedirs p] has to find or make a
    directory. *)
Definition clear_for_dirs (m : gmap string node) (p : PurePath) : Prop :=
  Forall (fun k =>
            is_file (m !! str {| root := root p; parts := take k (parts p) |})
            = false)
         (seq 1 (length (parts p))).

Global Instance clear_for_dirs_dec m p : Decision (clear_for_dirs m p).
Proof. unfold clear_for_dirs. apply _. Defined.

(** [m'] holds everything [m] holds and, besides, new directories only. *)
Definition adds_dirs_only (m m' : gmap string node) : Prop :=
  ∀ key, m' !! key = m !! key ∨ (m !! key = None ∧ m' !! key = Some Dir).

Fixpoint has_slash (s : string) : bool :=
  match s with
  | EmptyString => false
  | String c s' => Ascii.eqb c "/" || has_slash s'
  end.

(** The destination as the specification words it: for the input
    [prefix/ancestor2/ground_truth_bb/name.ext] the array goes to
    [prefix/ancestor2/BBoxes/name.npy]. *)
Definition claimed_dst_file_path (prefix ancestor2 name : string) : string :=
  prefix +:+ "/" +:+ ancestor2 +:+ "/BBoxes/" +:+ name +:+ ".npy".

(** The indices below [n] that pass the test of line 61. *)
Definition sampled (n : nat) : list nat :=
  filter (fun i => selected i = true) (seq 0 n).

(** The frames of [reader], numbered from [start], that pass the test
    and have no entry at their path in [m] yet. *)
Definition due (m : gmap string node) (folder : string) (start : nat)
    (reader : list frame) : list (nat * frame) :=
  filter (fun p => selected p.1 = true ∧ m !! frame_path folder p.1 = None)
         (zip (seq start (length reader)) reader).

(** What [imwrite] is called with for the numbered frame [p]. *)
Definition frame_write (folder : string) (p : nat * frame) : string * content :=
  (frame_path folder p.1, Jpg p.2).

(** ** Sample data *)

(** Three stored masks, laid out columns first as in the file: a region
    with a hole, a blank mask and a single pixel. *)
Definition sample_region : ndarray :=
  {| shape0 := 4; shape1 := 3;
     buf := [0; 0; 0;  0; 255; 0;  0; 0; -1;  0; 1; 0]%Z |}.

Definition sample_blank : ndarray :=
  {| shape0 := 2; shape1 := 2; buf := [0; 0; 0; 0]%Z |}.

Definition sample_dot : ndarray :=
  {| shape0 := 3; shape1 := 2; buf := [0; 0;  0; 0;  0; 1]%Z |}.

Definition sample_objects : gmap href ndarray :=
  {[ 10 := sample_region; 11 := sample_blank; 12 := sample_dot ]}.

Definition sample_h5 : h5file :=
  {| h5_Masks := Some [10; 11; 12];
     h5_objects := Some (dataset_of <$> sample_objects) |}.

(** An annotation file of the data set, with the output of an earlier
    run next to it. *)
Definition sample_src : string :=
  "/data/h36m/S1/MySegmentsMat/ground_truth_bb/Directions.54138969.mat".

Definition sample_world : world :=
  {| fs := {[ sample_src := File (Mat sample_h5);
              "/data/h36m/S1/BBoxes/Directions.54138969.npy" :=
                File (Npy [degenerate]) ]};
     trace := [] |}.

(** The same masks in a file whose second entry names no object. *)
Definition dangling_h5 : h5file :=
  {| h5_Masks := Some [10; 99; 12];
     h5_objects := Some (dataset_of <$> sample_objects) |}.

Definition dangling_src : string :=
  "/data/h36m/S1/MySegmentsMat/ground_truth_bb/Walking.60457274.mat".

Definition dangling_world : world :=
  {| fs := {[ dangling_src := File (Mat dangling_h5) ]}; trace := [] |}.

(** The masks of [sample_h5] in a file whose second entry is an array
    of rank one, and in a file without the group [#refs#]. *)
Definition vector_h5 : h5file :=
  {| h5_Masks := Some [10; 20; 12];
     h5_objects :=
       Some (<[20 := {| dims := [3]; data := [0; 1; 0]%Z |}]>
               (dataset_of <$> sample_objects)) |}.

Definition groupless_h5 : h5file :=
  {| h5_Masks := Some [10; 11; 12]; h5_objects := None |}.

(** A stored mask of [c + 1] lines of one element each, the last of
    them nonzero: transposed, one row whose only nonzero pixel is in
    column [c]. *)
Definition pixel_at_end (c : nat) : ndarray :=
  {| shape0 := S c; shape1 := 1; buf := replicate c 0%Z ++ [1%Z] |}.

(** A file that holds the one mask [a]. *)
Definition single_mask_h5 (a : ndarray) : h5file :=
  {| h5_Masks := Some [0]; h5_objects := Some {[ 0 := dataset_of a ]} |}.

(** The first column index that float32 does not hold: 2^24 + 1. *)
Definition wide_column : nat := Z.to_nat 16777217.

(** A video of eleven frames next to one frame file of an earlier run. *)
Definition sample_video : string :=
  "/data/h36m/S1/Videos/Walking.60457274.mp4".

Definition sample_frames : list frame :=
  (fun i => [Z.of_nat i]) <$> seq 0 11.

Definition sample_images : PurePath :=
  {| root := "/";
     parts := ["data"; "h36m"; "S1"; "Images"; "Walking.60457274"] |}.

Definition sample_video_world : world :=
  {| fs := {[ sample_video := File (Mp4 sample_frames);
              "/data/h36m/S1/Images/Walking.60457274/frame_000005.jpg" :=
                File (Blob [255; 216]%Z) ]};
     trace := [] |}.

(** A video of 700 frames and no output yet. *)
Definition long_video_world : world :=
  {| fs := {[ sample_video :=
                File (Mp4 ((fun i => [Z.of_nat i]) <$> seq 0 700)) ]};
     trace := [] |}.

(** ** Further vocabulary *)

(** The box with its two axes exchanged. *)
Definition swap_axes (b : bbox) : bbox :=
  Box (box_top b) (box_left b) (box_height b) (box_width b).

(** An annotation file named by a path of two components. *)
Definition short_src : string := "ground_truth_bb/Walking.60457274.mat".

Definition short_world : world :=
  {| fs := {[ short_src := File (Mat sample_h5) ]}; trace := [] |}.

(** A world without the video, and one where a directory has its name. *)
Definition no_video_world : world :=
  {| fs := {[ "/data/h36m/S1/Videos" := Dir ]}; trace := [] |}.

Fixpoint has_dot (s : string) : bool :=
  match s with
  | EmptyString => false
  | String c s' => Ascii.eqb c "." || has_dot s'
  end.

(** The number a string of decimal digits stands for. *)
Definition read_digits (s : string) : option nat :=
  Nat.of_uint <$> NilEmpty.uint_of_string s.

(** An event that is not a printed line. *)
Definition silent (e : event) : Prop :=
  match e with
  | Printed _ => False
  | _ => True
  end.

(** The array with [g] applied to every element. *)
Definition map_values (g : Z → Z) (a : ndarray) : ndarray :=
  {| shape0 := shape0 a; shape1 := shape1 a; buf := g <$> buf a |}.

(** * Properties *)

(** ** Arrays *)

Lemma truthy_true z : truthy z = true ↔ z ≠ 0%Z.
Proof. unfold truthy. rewrite negb_true_iff, Z.eqb_neq. done. Qed.

Lemma elem_of_pixels m i j :
  (i, j) ∈ pixels m ↔ i < shape0 m ∧ j < shape1 m ∧ item m i j ≠ 0%Z.
Proof.
  unfold pixels. rewrite list_elem_of_bind. split.
  - intros (i' & Hin & Hi'). apply elem_of_seq in Hi'.
    apply list_elem_of_bind in Hin as (j' & Hin & Hj').
    apply elem_of_seq in Hj'. case_bool_decide as Hnz.
    + apply list_elem_of_singleton in Hin. simplify_eq.
      repeat split; [lia | lia | done].
    + by apply elem_of_nil in Hin.
  - intros (Hi & Hj & Hnz). exists i. split; [|apply elem_of_seq; lia].
    apply list_elem_of_bind. exists j. split; [|apply elem_of_seq; lia].
    rewrite bool_decide_true by done. by apply list_elem_of_singleton.
Qed.

Lemma existsb_seq_true (P : nat → bool) n :
  existsb P (seq 0 n) = true ↔ ∃ i, i < n ∧ P i = true.
Proof.
  rewrite existsb_exists. split.
  - intros (i & Hin & HP). apply in_seq in Hin. exists i. split; [lia|done].
  - intros (i & Hi & HP). exists i. split; [apply in_seq; lia | done].
Qed.

Lemma existsb_seq_ext (P Q : nat → bool) n :
  (∀ i, i < n → P i = Q i) → existsb P (seq 0 n) = existsb Q (seq 0 n).
Proof.
  intros Hext. apply eq_true_iff_eq. rewrite !existsb_seq_true.
  split; intros (i & Hi & H); exists i; (split; [done|]);
    [rewrite <- Hext | rewrite Hext]; done.
Qed.

Lemma any_axis0_lookup m j :
  any_axis0 m !! j = Some true ↔ ∃ i, (i, j) ∈ pixels m.
Proof.
  unfold any_axis0. rewrite list_lookup_fmap. split.
  - intros H. destruct (seq 0 (shape1 m) !! j) as [j'|] eqn:Hj; [|done].
    apply lookup_seq in Hj as [-> Hj]. simpl in H. injection H as H.
    apply existsb_seq_true in H as (i & Hi & Ht). exists i.
    apply elem_of_pixels. by rewrite <- truthy_true.
  - intros (i & Hp). apply elem_of_pixels in Hp as (Hi & Hj & Hnz).
    rewrite lookup_seq_lt by done. simpl. f_equal.
    apply existsb_seq_true. exists i. by rewrite truthy_true.
Qed.

Lemma any_axis1_lookup m i :
  any_axis1 m !! i = Some true ↔ ∃ j, (i, j) ∈ pixels m.
Proof.
  unfold any_axis1. rewrite list_lookup_fmap. split.
  - intros H. destruct (seq 0 (shape0 m) !! i) as [i'|] eqn:Hi; [|done].
    apply lookup_seq in Hi as [-> Hi]. simpl in H. injection H as H.
    apply existsb_seq_true in H as (j & Hj & Ht). exists j.
    apply elem_of_pixels. by rewrite <- truthy_true.
  - intros (j & Hp). apply elem_of_pixels in Hp as (Hi & Hj & Hnz).
    rewrite lookup_seq_lt by done. simpl. f_equal.
    apply existsb_seq_true. exists j. by rewrite truthy_true.
Qed.

Lemma elem_of_nonzero_from k v n :
  n ∈ nonzero_from k v ↔ ∃ i, n = k + i ∧ v !! i = Some true.
Proof.
  revert k. induction v as [|b v IH]; intros k; simpl.
  - split; [by intros ?%elem_of_nil | by intros (i & _ & ?)].
  - destruct b.
    + rewrite elem_of_cons, IH. split.
      * intros [-> | (i & -> & Hi)]; [exists 0 | exists (S i)];
          (split; [lia | done]).
      * intros ([|i] & -> & Hi); [left; lia | right; exists i].
        split; [lia | done].
    + rewrite IH. split.
      * intros (i & -> & Hi). exists (S i). split; [lia | done].
      * intros ([|i] & -> & Hi); [done|]. exists i. split; [lia | done].
Qed.

Lemma head_nonzero_from k v x :
  head (nonzero_from k v) = Some x →
  x ∈ nonzero_from k v ∧ ∀ n, n ∈ nonzero_from k v → x ≤ n.
Proof.
  revert k. induction v as [|b v IH]; intros k; simpl; [done|].
  destruct b; [|apply IH]. simpl. intros [= <-]. split; [left|].
  intros n [-> | Hn]%elem_of_cons; [done|].
  apply elem_of_nonzero_from in Hn as (i & -> & _). lia.
Qed.

Lemma last_nonzero_from k v y :
  last (nonzero_from k v) = Some y →
  y ∈ nonzero_from k v ∧ ∀ n, n ∈ nonzero_from k v → n ≤ y.
Proof.
  revert k. induction v as [|b v IH]; intros k; simpl; [done|].
  destruct b; [|apply IH]. rewrite last_cons.
  destruct (last (nonzero_from (S k) v)) as [y'|] eqn:Hl.
  - intros [= <-]. destruct (IH _ Hl) as [Hin Hmax]. split; [by right|].
    intros n [-> | Hn]%elem_of_cons; [|by apply Hmax].
    apply elem_of_nonzero_from in Hin as (i & -> & _). lia.
  - intros [= <-]. apply last_None in Hl. rewrite Hl. split; [left|].
    by intros n ->%list_elem_of_singleton.
Qed.

Lemma first_and_last_none v :
  (∀ i, v !! i ≠ Some true) → first_and_last (nonzero v) = raise IndexError.
Proof.
  intros Hv. unfold first_and_last, nonzero.
  destruct (nonzero_from 0 v) as [|x l] eqn:Hnz; [done|].
  assert (x ∈ nonzero_from 0 v) as Hx by (rewrite Hnz; left).
  apply elem_of_nonzero_from in Hx as (i & _ & Hi). by destruct (Hv i).
Qed.

Lemma first_and_last_some v i0 :
  v !! i0 = Some true →
  ∃ x y, first_and_last (nonzero v) = Ok (x, y) ∧
         v !! x = Some true ∧ v !! y = Some true ∧
         ∀ i, v !! i = Some true → x ≤ i ≤ y.
Proof.
  intros Hi0. unfold first_and_last, nonzero.
  assert (i0 ∈ nonzero_from 0 v) as Hin
    by (apply elem_of_nonzero_from; by exists i0).
  destruct (head (nonzero_from 0 v)) as [x|] eqn:Hh; cycle 1.
  { apply head_None in Hh. rewrite Hh in Hin. by apply elem_of_nil in Hin. }
  destruct (last (nonzero_from 0 v)) as [y|] eqn:Hl; cycle 1.
  { apply last_None in Hl. rewrite Hl in Hin. by apply elem_of_nil in Hin. }
  apply head_nonzero_from in Hh as [Hx Hmin].
  apply last_nonzero_from in Hl as [Hy Hmax].
  exists x, y. split; [done|].
  apply elem_of_nonzero_from in Hx as (ix & -> & Hx).
  apply elem_of_nonzero_from in Hy as (iy & -> & Hy).
  repeat split; [done | done | |].
  - apply Hmin, elem_of_nonzero_from. by exists i.
  - apply Hmax, elem_of_nonzero_from. by exists i.
Qed.

(** ** The transposed view *)

Lemma lookup_bind_blocks {A} (f : nat → list A) m :
  (∀ i, length (f i) = m) →
  ∀ n s i j, i < n → j < m →
             (seq s n ≫= f) !! (i * m + j) = f (s + i) !! j.
Proof.
  intros Hlen. induction n as [|n IH]; intros s i j Hi Hj; [lia|].
  simpl seq. rewrite bind_cons. destruct i as [|i].
  - simpl. rewrite Nat.add_0_r. apply lookup_app_l. by rewrite Hlen.
  - rewrite lookup_app_r by (rewrite Hlen; simpl; lia).
    rewrite Hlen. replace (S i * m + j - m) with (i * m + j) by (simpl; lia).
    rewrite IH by lia. by replace (S s + i) with (s + S i) by lia.
Qed.

Lemma item_transpose a i j :
  i < shape1 a → j < shape0 a → item (transpose a) i j = item a j i.
Proof.
  intros Hi Hj. unfold item at 1. simpl.
  rewrite (lookup_bind_blocks _ (shape0 a)); [| | done | done].
  - rewrite list_lookup_fmap, lookup_seq_lt by done. done.
  - intros k. by rewrite length_fmap, length_seq.
Qed.

(** ** One mask *)

Lemma bbox_of_mask_empty m : pixels m = [] → bbox_of_mask m = Ok degenerate.
Proof.
  intros Hpx. unfold bbox_of_mask, tight_box.
  rewrite first_and_last_none; [done|].
  intros j Hj. apply any_axis0_lookup in Hj as [i Hi].
  rewrite Hpx in Hi. by apply elem_of_nil in Hi.
Qed.

Lemma bbox_of_mask_nonempty m :
  pixels m ≠ [] →
  ∃ c0 c1 r0 r1,
    spans m c0 c1 r0 r1 ∧
    bbox_of_mask m = Ok (stored_row c0 c1 r0 r1).
Proof.
  intros Hpx. destruct (pixels m) as [|[i0 j0] rest] eqn:Epx; [done|].
  assert ((i0, j0) ∈ pixels m) as Hp0 by (rewrite Epx; left).
  assert (any_axis0 m !! j0 = Some true) as Hc
    by (apply any_axis0_lookup; by exists i0).
  assert (any_axis1 m !! i0 = Some true) as Hr
    by (apply any_axis1_lookup; by exists j0).
  apply first_and_last_some in Hc as (c0 & c1 & Ec & Hc0 & Hc1 & Hcs).
  apply first_and_last_some in Hr as (r0 & r1 & Er & Hr0 & Hr1 & Hrs).
  exists c0, c1, r0, r1. split.
  - apply any_axis0_lookup in Hc0 as [a0 Hc0].
    apply any_axis0_lookup in Hc1 as [a1 Hc1].
    apply any_axis1_lookup in Hr0 as [b0 Hr0].
    apply any_axis1_lookup in Hr1 as [b1 Hr1].
    unfold spans. rewrite !Exists_exists, Forall_forall.
    split_and!; [by exists (a0, c0) | by exists (a1, c1)
                | by exists (r0, b0) | by exists (r1, b1) |].
    intros [i j] Hp. simpl. split.
    + apply Hcs, any_axis0_lookup. by exists i.
    + apply Hrs, any_axis1_lookup. by exists j.
  - unfold bbox_of_mask, tight_box. rewrite Ec. simpl. rewrite Er. done.
Qed.

Lemma spans_unique m c0 c1 r0 r1 c0' c1' r0' r1' :
  spans m c0 c1 r0 r1 → spans m c0' c1' r0' r1' →
  c0 = c0' ∧ c1 = c1' ∧ r0 = r0' ∧ r1 = r1'.
Proof.
  unfold spans. rewrite !Exists_exists, !Forall_forall.
  intros ((p0 & Hp0 & E0) & (p1 & Hp1 & E1) & (p2 & Hp2 & E2) &
          (p3 & Hp3 & E3) & Hall).
  intros ((q0 & Hq0 & F0) & (q1 & Hq1 & F1) & (q2 & Hq2 & F2) &
          (q3 & Hq3 & F3) & Hall').
  pose proof (Hall' _ Hp0). pose proof (Hall' _ Hp1).
  pose proof (Hall' _ Hp2). pose proof (Hall' _ Hp3).
  pose proof (Hall _ Hq0). pose proof (Hall _ Hq1).
  pose proof (Hall _ Hq2). pose proof (Hall _ Hq3).
  lia.
Qed.

Lemma spans_nonempty m c0 c1 r0 r1 : spans m c0 c1 r0 r1 → pixels m ≠ [].
Proof. intros [H _] E. rewrite E in H. by apply Exists_nil in H. Qed.

Lemma bbox_of_mask_spans m c0 c1 r0 r1 :
  spans m c0 c1 r0 r1 →
  bbox_of_mask m = Ok (stored_row c0 c1 r0 r1).
Proof.
  intros Hs.
  destruct (bbox_of_mask_nonempty m (spans_nonempty _ _ _ _ _ Hs))
    as (c0' & c1' & r0' & r1' & Hs' & ->).
  by destruct (spans_unique _ _ _ _ _ _ _ _ _ Hs Hs') as (-> & -> & -> & ->).
Qed.

Lemma spans_single m r c : pixels m = [(r, c)] → spans m c c r r.
Proof.
  intros E. unfold spans. rewrite E.
  split_and!; try (by apply Exists_cons_hd).
  apply Forall_singleton. simpl. lia.
Qed.

Lemma bbox_of_mask_total m : ∃ row, bbox_of_mask m = Ok row.
Proof.
  destruct (decide (pixels m = [])) as [E|E].
  - exists degenerate. by apply bbox_of_mask_empty.
  - destruct (bbox_of_mask_nonempty m E) as (? & ? & ? & ? & _ & ->). eauto.
Qed.

(** ** What the array stores *)

Lemma float32_of_int_exact n :
  (Z.abs n ≤ 2 ^ 24)%Z → float32_of_int n = n.
Proof.
  intros Hn. unfold float32_of_int.
  destruct (decide (Z.abs n = 2 ^ 24)%Z) as [E|Hne].
  - rewrite E. destruct (Z.abs_spec n) as [[? Ha]|[? Ha]]; rewrite Ha in E.
    + subst n. vm_compute. reflexivity.
    + replace n with (- 2 ^ 24)%Z by lia. vm_compute. reflexivity.
  - destruct (decide (Z.abs n = 0)%Z) as [E0|Hpos]; [by rewrite E0|].
    assert (Z.log2 (Z.abs n) < 24)%Z as Hlog
      by (apply Z.log2_lt_pow2; lia).
    rewrite (proj2 (Z.leb_le _ _)) by lia. done.
Qed.

Example float32_above_2_24 :
  float32_of_int 16777216 = 16777216%Z ∧
  float32_of_int 16777217 = 16777216%Z ∧
  float32_of_int 16777218 = 16777218%Z ∧
  float32_of_int 16777219 = 16777220%Z.
Proof. vm_compute. done. Qed.

Lemma stored_row_exact xmin xmax ymin ymax :
  (Z.of_nat xmax < 2 ^ 24)%Z → (Z.of_nat ymax < 2 ^ 24)%Z →
  xmin ≤ xmax → ymin ≤ ymax →
  stored_row xmin xmax ymin ymax
  = Box (Z.of_nat xmin) (Z.of_nat ymin)
        (Z.of_nat xmax - Z.of_nat xmin + 1)
        (Z.of_nat ymax - Z.of_nat ymin + 1).
Proof.
  intros Hx Hy Hxs Hys. unfold stored_row.
  rewrite !float32_of_int_exact by lia. done.
Qed.

(** ** A mask of rank two among the arrays of any rank *)

Lemma bind_singleton_fmap {A B} (g : A → B) (l : list A) :
  (x ← l; [g x]) = g <$> l.
Proof. induction l as [|x l IH]; [done|]. by rewrite bind_cons, fmap_cons, IH. Qed.

Lemma indices_cons d shape :
  indices (d :: shape) = i ← seq 0 d; cons i <$> indices shape.
Proof. done. Qed.

Lemma indices_one n : indices [n] = (fun j => [j]) <$> seq 0 n.
Proof. rewrite indices_cons. apply (bind_singleton_fmap (fun j => [j])). Qed.

Lemma omap_flags (E : list nat → bool) (F : nat → bool) n :
  (∀ j, E [j] = F j) →
  ∀ k, omap (fun p : list nat * bool => if p.2 then head p.1 else None)
            ((fun j => ([j], E [j])) <$> seq k n)
       = nonzero_from k (F <$> seq k n).
Proof.
  intros HE. induction n as [|n IH]; intros k; [done|]. simpl.
  rewrite HE, IH. by destruct (F k).
Qed.

Lemma element_matrix m a i j :
  matrix m = Some a → element m [i; j] = item a i j.
Proof.
  unfold matrix, element, item. destruct (dims m) as [|r [|c [|]]]; try done.
  by intros [= <-].
Qed.

Lemma tight_box_nd_matrix m a : matrix m = Some a → tight_box_nd m = tight_box a.
Proof.
  intros Hm. unfold tight_box_nd, tight_box.
  assert (dims m = [shape0 a; shape1 a]) as Hd.
  { unfold matrix in Hm. destruct (dims m) as [|r [|c [|]]]; try done.
    by injection Hm as <-. }
  assert (nonzero_nd (any_axis0_nd m) = Ok (nonzero (any_axis0 a))) as ->.
  { unfold nonzero_nd, any_axis0_nd, any_axis0, nonzero. rewrite Hd.
    cbn [flag_dims flag_list]. f_equal.
    rewrite indices_one, <- list_fmap_compose.
    apply (omap_flags
             (fun idx => existsb (fun i => truthy (element m (i :: idx)))
                           (seq 0 (shape0 a)))).
    intros j. apply existsb_seq_ext. intros i _.
    by rewrite (element_matrix _ _ _ _ Hm). }
  assert (nonzero_nd (any_axis1_nd m) = Ok (nonzero (any_axis1 a))) as ->.
  { unfold nonzero_nd, any_axis1_nd, any_axis1, nonzero. rewrite Hd.
    cbn [flag_dims flag_list]. f_equal.
    cbn [indices fmap list_fmap]. rewrite bind_singleton_fmap.
    apply (omap_flags
             (fun idx => existsb (fun j => truthy (element m (idx ++ [j])))
                           (seq 0 (shape1 a)))).
    intros i. apply existsb_seq_ext. intros j _.
    by rewrite <- (element_matrix _ _ _ _ Hm). }
  done.
Qed.

Lemma fmap_bind_blocks {A B C} (f : B → C) (g : A → list B) (l : list A) :
  f <$> (l ≫= g) = l ≫= (fun x => f <$> g x).
Proof.
  induction l as [|x l IH]; [done|]. by rewrite !bind_cons, fmap_app, IH.
Qed.

Lemma transpose_nd_matrix obj stored :
  matrix obj = Some stored → matrix (transpose_nd obj) = Some (transpose stored).
Proof.
  intros Hm. unfold matrix in Hm |- *. unfold transpose_nd. cbn [dims data].
  destruct (dims obj) as [|r [|c [|]]] eqn:Hd; try done.
  injection Hm as <-. cbn [reverse rev_append]. unfold transpose.
  cbn [shape0 shape1 buf]. do 2 f_equal.
  rewrite indices_cons, fmap_bind_blocks. apply list_bind_ext; [|done].
  intros i. rewrite indices_one, <- !list_fmap_compose.
  apply list_fmap_ext. intros k j _. simpl. unfold element, item. rewrite Hd.
  done.
Qed.

(** An entry of rank three: the element [0, 1, 2] of an array of shape
    [1, 2, 3] is the element [2, 1, 0] of its transpose, whose flags
    along axis 0 and along axis 1 are set at [1, 0] and at [2, 0]. *)
Example box_of_a_stack :
  box_of_entry (transpose_nd {| dims := [1; 2; 3];
                                data := [0; 0; 0;  0; 0; 1]%Z |})
  = Ok (Box 1 2 1 1).
Proof. vm_compute. reflexivity. Qed.

(** ** All the masks of a file *)

Lemma matrix_dataset_of a : matrix (dataset_of a) = Some a.
Proof. by destruct a. Qed.

Lemma h5_refs_deref f ref stored :
  h5_refs f !! ref = Some stored →
  ∃ obj, deref f ref = Ok obj ∧ matrix obj = Some stored.
Proof.
  unfold h5_refs, deref. destruct (h5_objects f) as [objects|]; [|done].
  rewrite lookup_omap. destruct (objects !! ref) as [obj|]; [|done].
  simpl. eauto.
Qed.

Lemma box_of_entry_matrix obj stored :
  matrix obj = Some stored →
  box_of_entry (transpose_nd obj) = bbox_of_mask (transpose stored).
Proof.
  intros H. unfold box_of_entry, bbox_of_mask.
  by rewrite (tight_box_nd_matrix _ _ (transpose_nd_matrix _ _ H)).
Qed.

Lemma decode_loop_length f refs :
  ∀ i bboxes rows,
    decode_loop f i refs bboxes = Ok rows → length rows = length bboxes.
Proof.
  induction refs as [|ref refs IH]; intros i bboxes rows; simpl.
  - by intros [= ->].
  - destruct (deref f ref) as [e|obj]; [done|]. simpl.
    destruct (box_of_entry (transpose_nd obj)) as [e|row]; [done|]. simpl.
    intros H. apply IH in H. by rewrite length_insert in H.
Qed.

Lemma decode_loop_ok f refs :
  Forall (resolvable f) refs →
  ∀ i bboxes,
    i + length refs ≤ length bboxes →
    ∃ rows,
      Forall2 (row_of f) refs rows ∧
      decode_loop f i refs bboxes =
        Ok (take i bboxes ++ rows ++ drop (i + length refs) bboxes).
Proof.
  induction 1 as [|ref refs [stored Hst] _ IH]; intros i bboxes Hlen; simpl.
  - exists []. split; [constructor|]. simpl.
    by rewrite Nat.add_0_r, take_drop.
  - simpl in Hlen. destruct (h5_refs_deref _ _ _ Hst) as (obj & -> & Hm).
    simpl. rewrite (box_of_entry_matrix _ _ Hm).
    destruct (bbox_of_mask_total (transpose stored)) as [row Hrow].
    rewrite Hrow. simpl.
    destruct (IH (S i) (<[i := row]> bboxes)) as (rows & Hrows & ->).
    { rewrite length_insert. lia. }
    exists (row :: rows). split.
    { constructor; [by exists stored | done]. }
    f_equal. rewrite (take_S_r _ _ row) by (apply list_lookup_insert_eq; lia).
    rewrite take_insert_ge by lia. rewrite drop_insert_lt by lia.
    rewrite <- app_assoc, Nat.add_succ_r. done.
Qed.

Lemma decode_ok junk f refs :
  h5_Masks f = Some refs →
  Forall (resolvable f) refs →
  ∃ rows, decode junk f = Ok rows ∧ Forall2 (row_of f) refs rows.
Proof.
  intros HM Hres. unfold decode, read_Masks. rewrite HM. simpl.
  destruct (decode_loop_ok f refs Hres 0 (replicate (length refs) junk))
    as (rows & Hrows & ->).
  { by rewrite length_replicate. }
  exists rows. split; [|done]. f_equal. simpl.
  rewrite drop_ge by (by rewrite length_replicate). by rewrite app_nil_r.
Qed.

Lemma Forall2_row_of_lookup f refs rows i ref stored :
  Forall2 (row_of f) refs rows →
  refs !! i = Some ref → h5_refs f !! ref = Some stored →
  ∃ row, rows !! i = Some row ∧ bbox_of_mask (transpose stored) = Ok row.
Proof.
  intros Hall Hi Hst.
  destruct (Forall2_lookup_l _ _ _ _ _ Hall Hi) as (row & Hrow & st & Hst' & Hb).
  exists row. split; [done|]. congruence.
Qed.

Lemma spans_bounds m c0 c1 r0 r1 :
  spans m c0 c1 r0 r1 →
  c0 ≤ c1 ∧ c1 < shape1 m ∧ r0 ≤ r1 ∧ r1 < shape0 m.
Proof.
  intros (H0 & H1 & H2 & H3 & Hall).
  apply Exists_exists in H0 as ([a0 b0] & Hp0 & ?).
  apply Exists_exists in H1 as ([a1 b1] & Hp1 & ?).
  apply Exists_exists in H2 as ([a2 b2] & Hp2 & ?).
  apply Exists_exists in H3 as ([a3 b3] & Hp3 & ?).
  rewrite Forall_forall in Hall. simplify_eq/=.
  pose proof (Hall _ Hp0) as B0. pose proof (Hall _ Hp2) as B2.
  apply elem_of_pixels in Hp1, Hp3. simpl in *. lia.
Qed.

Lemma bbox_of_mask_spans_exact m c0 c1 r0 r1 :
  (Z.of_nat (shape0 m) ≤ 2 ^ 24)%Z → (Z.of_nat (shape1 m) ≤ 2 ^ 24)%Z →
  spans m c0 c1 r0 r1 →
  bbox_of_mask m
  = Ok (Box (Z.of_nat c0) (Z.of_nat r0)
            (Z.of_nat c1 - Z.of_nat c0 + 1) (Z.of_nat r1 - Z.of_nat r0 + 1)).
Proof.
  intros H0 H1 Hs. rewrite (bbox_of_mask_spans _ _ _ _ _ Hs).
  apply spans_bounds in Hs. rewrite stored_row_exact by lia. done.
Qed.

(** The mask with one nonzero pixel, in the last of its columns. *)

Lemma item_pixel_at_end c j :
  j ≤ c →
  item (transpose (pixel_at_end c)) 0 j = if decide (j = c) then 1%Z else 0%Z.
Proof.
  intros Hj. rewrite item_transpose by (simpl; lia).
  unfold item, pixel_at_end. cbn [shape0 shape1 buf].
  rewrite Nat.mul_1_r, Nat.add_0_r. destruct (decide (j = c)) as [->|Hne].
  - rewrite lookup_app_r by (by rewrite length_replicate).
    by rewrite length_replicate, Nat.sub_diag.
  - rewrite lookup_app_l by (rewrite length_replicate; lia).
    rewrite lookup_replicate_2 by lia. done.
Qed.

Lemma bind_nil_all {A B} (g : A → list B) l :
  (∀ x, x ∈ l → g x = []) → l ≫= g = [].
Proof.
  induction l as [|x l IH]; intros Hg; [done|].
  rewrite bind_cons, Hg by left. apply IH. intros y Hy. apply Hg. by right.
Qed.

Lemma bind_one {A B} (g : A → list B) x : [x] ≫= g = g x.
Proof. simpl. apply app_nil_r. Qed.

Lemma pixels_pixel_at_end c : pixels (transpose (pixel_at_end c)) = [(0, c)].
Proof.
  unfold pixels.
  change (shape0 (transpose (pixel_at_end c))) with 1.
  change (shape1 (transpose (pixel_at_end c))) with (S c).
  change (seq 0 1) with [0]. rewrite bind_one.
  rewrite seq_S, bind_app, bind_nil_all.
  - change (0 + c) with c. rewrite bind_one.
    rewrite item_pixel_at_end by done. rewrite decide_True by done. done.
  - intros j Hj%elem_of_seq. rewrite item_pixel_at_end by lia.
    rewrite decide_False by lia. done.
Qed.

Lemma decode_single_mask junk a row :
  bbox_of_mask (transpose a) = Ok row →
  decode junk (single_mask_h5 a) = Ok [row].
Proof.
  intros Hrow.
  assert (deref (single_mask_h5 a) 0 = Ok (dataset_of a)) as Hobj.
  { unfold deref, single_mask_h5. cbn [h5_objects].
    by rewrite lookup_singleton_eq. }
  unfold decode. simpl. rewrite Hobj. simpl.
  rewrite (box_of_entry_matrix _ a) by apply matrix_dataset_of.
  rewrite Hrow. done.
Qed.

Lemma float32_of_wide_column : float32_of_int (Z.of_nat wide_column) = 16777216%Z.
Proof.
  unfold wide_column. rewrite Z2Nat.id by lia. vm_compute. reflexivity.
Qed.

Lemma stored_row_wide_column :
  stored_row wide_column wide_column 0 0 = Box 16777216 0 1 1.
Proof.
  unfold stored_row. rewrite float32_of_wide_column.
  replace (Z.of_nat wide_column - Z.of_nat wide_column + 1)%Z with 1%Z by lia.
  done.
Qed.

Lemma bbox_of_wide_mask :
  bbox_of_mask (transpose (pixel_at_end wide_column)) = Ok (Box 16777216 0 1 1).
Proof.
  rewrite <- stored_row_wide_column. apply bbox_of_mask_spans, spans_single.
  apply pixels_pixel_at_end.
Qed.

(** C1, counterexample.  The output array has dtype float32, which
    holds no odd number above 2^24.  The file holds one mask of one row
    and 16777218 columns, its single nonzero pixel in column 16777217:
    the row stored for it is [16777216, 0, 1, 1], not
    [16777217, 0, 1, 1]. *)
Lemma wide_mask_row_is_rounded :
  pixels (transpose (pixel_at_end wide_column)) = [(0, wide_column)] ∧
  spans (transpose (pixel_at_end wide_column)) wide_column wide_column 0 0 ∧
  Z.of_nat wide_column = 16777217%Z ∧
  decode degenerate (single_mask_h5 (pixel_at_end wide_column))
  = Ok [Box 16777216 0 1 1].
Proof.
  split_and!.
  - apply pixels_pixel_at_end.
  - apply spans_single, pixels_pixel_at_end.
  - unfold wide_column. rewrite Z2Nat.id by lia. reflexivity.
  - apply decode_single_mask, bbox_of_wide_mask.
Qed.

(** C1, amended.  For a file whose references resolve, [decode] returns
    one row per mask, in the order of the masks.  For a stored mask of
    at most 2^24 lines in either direction: when the nonzero pixels of
    the transposed mask span columns [c0..c1] and rows [r0..r1],
    whatever lies in between, the row of that mask is
    [c0, r0, c1 - c0 + 1, r1 - r0 + 1]; a mask with the single nonzero
    pixel (r, c) gets [c, r, 1, 1]. *)
Theorem decode_rows_aligned_and_tight junk f refs :
  h5_Masks f = Some refs →
  Forall (resolvable f) refs →
  ∃ rows,
    decode junk f = Ok rows ∧
    length rows = length refs ∧
    ∀ i ref stored,
      refs !! i = Some ref → h5_refs f !! ref = Some stored →
      (Z.of_nat (shape0 stored) ≤ 2 ^ 24)%Z →
      (Z.of_nat (shape1 stored) ≤ 2 ^ 24)%Z →
      (∀ c0 c1 r0 r1,
         spans (transpose stored) c0 c1 r0 r1 →
         rows !! i =
           Some (Box (Z.of_nat c0) (Z.of_nat r0)
                     (Z.of_nat c1 - Z.of_nat c0 + 1)
                     (Z.of_nat r1 - Z.of_nat r0 + 1))) ∧
      (∀ r c,
         pixels (transpose stored) = [(r, c)] →
         rows !! i = Some (Box (Z.of_nat c) (Z.of_nat r) 1 1)).
Proof.
  intros HM Hres. destruct (decode_ok junk f refs HM Hres) as (rows & Hd & Hall).
  exists rows. split; [done|]. split; [symmetry; by eapply Forall2_length|].
  intros i ref stored Hi Hst H0 H1.
  destruct (Forall2_row_of_lookup _ _ _ _ _ _ Hall Hi Hst) as (row & Hrow & Hb).
  split.
  - intros c0 c1 r0 r1 Hs.
    rewrite (bbox_of_mask_spans_exact (transpose stored) _ _ _ _ H1 H0 Hs)
      in Hb.
    injection Hb as <-. done.
  - intros r c Hpx.
    rewrite (bbox_of_mask_spans_exact (transpose stored) _ _ _ _ H1 H0
               (spans_single _ _ _ Hpx)) in Hb.
    injection Hb as <-. rewrite Hrow. do 2 f_equal; lia.
Qed.

Example sample_region_spans : spans (transpose sample_region) 1 3 1 2.
Proof. apply (bool_decide_unpack _). vm_compute. exact I. Qed.

Lemma decode_rows_aligned_and_tight_witness :
  ∃ rows,
    decode degenerate sample_h5 = Ok rows ∧
    length rows = 3 ∧
    rows !! 0 = Some (Box 1 1 3 2) ∧
    rows !! 2 = Some (Box 2 1 1 1).
Proof.
  destruct (decode_rows_aligned_and_tight degenerate sample_h5 [10; 11; 12])
    as (rows & Hd & Hl & Hrows).
  - reflexivity.
  - apply (bool_decide_unpack _). vm_compute. exact I.
  - exists rows. split; [exact Hd|]. split; [exact Hl|]. split.
    + destruct (Hrows 0 10 sample_region) as [Hspan _].
      * reflexivity.
      * vm_compute. reflexivity.
      * vm_compute. discriminate.
      * vm_compute. discriminate.
      * apply (Hspan 1 3 1 2). apply (bool_decide_unpack _). vm_compute. exact I.
    + destruct (Hrows 2 12 sample_dot) as [_ Hdot].
      * reflexivity.
      * vm_compute. reflexivity.
      * vm_compute. discriminate.
      * vm_compute. discriminate.
      * apply (Hdot 1 2). vm_compute. reflexivity.
Defined.

Example decode_sample :
  decode degenerate sample_h5 = Ok [Box 1 1 3 2; Box 0 0 0 0; Box 2 1 1 1].
Proof. vm_compute. reflexivity. Qed.

(** C3. A mask without nonzero pixel makes the box computation raise
    [IndexError]; the handler stores [0, 0, 0, 0] for it, and every
    mask of the file still gets its row. *)
Theorem blank_mask_gives_degenerate_box junk f refs :
  h5_Masks f = Some refs →
  Forall (resolvable f) refs →
  ∃ rows,
    decode junk f = Ok rows ∧
    Forall2 (row_of f) refs rows ∧
    ∀ i ref stored,
      refs !! i = Some ref → h5_refs f !! ref = Some stored →
      pixels (transpose stored) = [] →
      tight_box (transpose stored) = raise IndexError ∧
      rows !! i = Some degenerate.
Proof.
  intros HM Hres. destruct (decode_ok junk f refs HM Hres) as (rows & Hd & Hall).
  exists rows. split; [done|]. split; [done|].
  intros i ref stored Hi Hst Hpx.
  destruct (Forall2_row_of_lookup _ _ _ _ _ _ Hall Hi Hst) as (row & Hrow & Hb).
  rewrite (bbox_of_mask_empty _ Hpx) in Hb. injection Hb as <-.
  split; [|done]. unfold tight_box. rewrite first_and_last_none; [done|].
  intros j Hj. apply any_axis0_lookup in Hj as [k Hk].
  rewrite Hpx in Hk. by apply elem_of_nil in Hk.
Qed.

Lemma blank_mask_gives_degenerate_box_witness :
  ∃ rows,
    decode degenerate sample_h5 = Ok rows ∧
    Forall2 (row_of sample_h5) [10; 11; 12] rows ∧
    ∀ i ref stored,
      [10; 11; 12] !! i = Some ref → sample_objects !! ref = Some stored →
      pixels (transpose stored) = [] →
      tight_box (transpose stored) = raise IndexError ∧
      rows !! i = Some degenerate.
Proof.
  apply (blank_mask_gives_degenerate_box degenerate sample_h5 [10; 11; 12]).
  - reflexivity.
  - apply (bool_decide_unpack _). vm_compute. exact I.
Defined.

Lemma pixels_nil m :
  pixels m = [] ↔ ∀ i j, i < shape0 m → j < shape1 m → item m i j = 0%Z.
Proof.
  split.
  - intros Hpx i j Hi Hj. destruct (decide (item m i j = 0%Z)) as [|Hnz]; [done|].
    assert ((i, j) ∈ pixels m) as Hin by (by apply elem_of_pixels).
    rewrite Hpx in Hin. by apply elem_of_nil in Hin.
  - intros Hall. destruct (pixels m) as [|[i j] rest] eqn:Epx; [done|].
    assert ((i, j) ∈ pixels m) as Hin by (rewrite Epx; left).
    apply elem_of_pixels in Hin as (Hi & Hj & Hnz). by destruct Hnz; apply Hall.
Qed.

(** C10, counterexample.  For the mask of one row whose only nonzero
    pixel is in column 16777217 the stored box is [16777216, 0, 1, 1]:
    the pixel lies to the right of [left + width - 1]. *)
Lemma wide_mask_box_misses_its_pixel :
  bbox_of_mask (transpose (pixel_at_end wide_column))
  = Ok (Box 16777216 0 1 1) ∧
  (0, wide_column) ∈ pixels (transpose (pixel_at_end wide_column)) ∧
  ¬ (Z.of_nat wide_column ≤ 16777216 + 1 - 1)%Z.
Proof.
  split_and!.
  - apply bbox_of_wide_mask.
  - rewrite pixels_pixel_at_end. left.
  - unfold wide_column. rewrite Z2Nat.id by lia. lia.
Qed.

(** C10, amended.  The box of a mask with [shape0] rows and [shape1]
    columns, neither above 2^24, lies inside the grid, its width is
    zero exactly when its height is, which happens only for a mask
    without nonzero pixel, and every nonzero pixel lies inside the
    box. *)
Theorem box_lies_within_mask m :
  (Z.of_nat (shape0 m) ≤ 2 ^ 24)%Z →
  (Z.of_nat (shape1 m) ≤ 2 ^ 24)%Z →
  ∃ l t w h,
    bbox_of_mask m = Ok (Box l t w h) ∧
    (0 ≤ l ∧ 0 ≤ t ∧
     l + w ≤ Z.of_nat (shape1 m) ∧ t + h ≤ Z.of_nat (shape0 m))%Z ∧
    (w = 0 ↔ h = 0)%Z ∧
    (w = 0%Z ↔ pixels m = []) ∧
    ∀ r c, r < shape0 m → c < shape1 m → item m r c ≠ 0%Z →
      (l ≤ Z.of_nat c ≤ l + w - 1 ∧ t ≤ Z.of_nat r ≤ t + h - 1)%Z.
Proof.
  intros Hrows Hcols. destruct (decide (pixels m = [])) as [E|E].
  - exists 0%Z, 0%Z, 0%Z, 0%Z. split; [by apply bbox_of_mask_empty|].
    split; [lia|]. split; [done|]. split; [done|].
    intros r c Hr Hc Hnz. by rewrite (proj1 (pixels_nil m) E r c Hr Hc) in Hnz.
  - destruct (bbox_of_mask_nonempty m E) as (c0 & c1 & r0 & r1 & Hs & _).
    rewrite (bbox_of_mask_spans_exact _ _ _ _ _ Hrows Hcols Hs).
    pose proof (spans_bounds _ _ _ _ _ Hs) as Hb.
    destruct Hs as (_ & _ & _ & _ & Hall). rewrite Forall_forall in Hall.
    eexists _, _, _, _. split; [done|].
    split; [lia|]. split; [lia|]. split; [split; [lia | done]|].
    intros r c Hr Hc Hnz.
    assert ((r, c) ∈ pixels m) as Hin by (by apply elem_of_pixels).
    apply Hall in Hin. simpl in Hin. lia.
Qed.

Lemma box_lies_within_mask_witness :
  ∃ l t w h,
    bbox_of_mask (transpose sample_region) = Ok (Box l t w h) ∧
    (0 ≤ l ∧ 0 ≤ t ∧ l + w ≤ 4 ∧ t + h ≤ 3)%Z ∧
    (w = 0 ↔ h = 0)%Z ∧
    (w = 0%Z ↔ pixels (transpose sample_region) = []) ∧
    ∀ r c, r < 3 → c < 4 → item (transpose sample_region) r c ≠ 0%Z →
      (l ≤ Z.of_nat c ≤ l + w - 1 ∧ t ≤ Z.of_nat r ≤ t + h - 1)%Z.
Proof.
  apply (box_lies_within_mask (transpose sample_region)).
  - vm_compute. discriminate.
  - vm_compute. discriminate.
Defined.

(** ** What the handler recovers *)

Lemma first_and_last_raises ix e : first_and_last ix = raise e → e = IndexError.
Proof.
  unfold first_and_last. destruct (head ix), (last ix); by intros [= <-].
Qed.

Lemma nonzero_nd_ok b :
  flag_dims b ≠ [] → ∃ ix, nonzero_nd b = Ok ix.
Proof. unfold nonzero_nd. destruct (flag_dims b); [done|]. eauto. Qed.

Lemma tight_box_nd_raises_only_IndexError mask e :
  2 ≤ length (dims mask) → tight_box_nd mask = raise e → e = IndexError.
Proof.
  intros Hrank. unfold tight_box_nd.
  destruct (nonzero_nd_ok (any_axis0_nd mask)) as [xs ->].
  { unfold any_axis0_nd. destruct (dims mask) as [|n0 [|n1 rest]]; simpl in *;
      [lia | lia | done]. }
  simpl. destruct (first_and_last xs) as [e0|[xmin xmax]] eqn:E0.
  { simpl. intros [= <-]. by eapply first_and_last_raises. }
  simpl. destruct (nonzero_nd_ok (any_axis1_nd mask)) as [ys ->].
  { unfold any_axis1_nd. destruct (dims mask) as [|n0 [|n1 rest]]; simpl in *;
      [lia | lia | done]. }
  simpl. destruct (first_and_last ys) as [e1|[ymin ymax]] eqn:E1.
  { simpl. intros [= <-]. by eapply first_and_last_raises. }
  done.
Qed.

Lemma tight_box_nd_low_rank mask :
  length (dims mask) < 2 → tight_box_nd mask = raise ValueError.
Proof.
  intros Hrank. unfold tight_box_nd, nonzero_nd, any_axis0_nd.
  destruct (dims mask) as [|n0 [|n1 rest]]; simpl in *; [done | done | lia].
Qed.

Lemma length_dims_transpose_nd obj :
  length (dims (transpose_nd obj)) = length (dims obj).
Proof. unfold transpose_nd. simpl. apply length_reverse. Qed.

Lemma box_of_entry_total mask :
  2 ≤ length (dims mask) → ∃ row, box_of_entry mask = Ok row.
Proof.
  intros Hrank. unfold box_of_entry.
  destruct (tight_box_nd mask) as [e|row] eqn:E; [|by exists row].
  apply tight_box_nd_raises_only_IndexError in E as ->; [|done].
  by exists degenerate.
Qed.

Lemma box_of_entry_low_rank mask :
  length (dims mask) < 2 → box_of_entry mask = raise ValueError.
Proof.
  intros Hrank. unfold box_of_entry. by rewrite tight_box_nd_low_rank.
Qed.

Lemma decode_loop_entries f refs :
  Forall (mask_like f) refs →
  ∀ i bboxes,
    i + length refs ≤ length bboxes →
    ∃ rows,
      Forall2 (entry_row f) refs rows ∧
      decode_loop f i refs bboxes =
        Ok (take i bboxes ++ rows ++ drop (i + length refs) bboxes).
Proof.
  induction 1 as [|ref refs (obj & Hobj & Hrank) _ IH]; intros i bboxes Hlen.
  - exists []. split; [constructor|]. simpl.
    by rewrite Nat.add_0_r, take_drop.
  - simpl in Hlen. simpl decode_loop. rewrite Hobj. simpl.
    destruct (box_of_entry_total (transpose_nd obj)) as [row Hrow].
    { by rewrite length_dims_transpose_nd. }
    rewrite Hrow. simpl.
    destruct (IH (S i) (<[i := row]> bboxes)) as (rows & Hrows & ->).
    { rewrite length_insert. lia. }
    exists (row :: rows). split.
    { constructor; [by exists obj | done]. }
    f_equal. rewrite (take_S_r _ _ row) by (apply list_lookup_insert_eq; lia).
    rewrite take_insert_ge by lia. rewrite drop_insert_lt by lia.
    rewrite <- app_assoc, Nat.add_succ_r. done.
Qed.

Lemma decode_loop_aborts f refs :
  ¬ Forall (mask_like f) refs →
  ∀ i bboxes,
    decode_loop f i refs bboxes =
      raise (match h5_objects f with
             | Some _ => ValueError
             | None => KeyError
             end).
Proof.
  induction refs as [|ref refs IH]; intros Hnot i bboxes.
  { destruct Hnot. constructor. }
  simpl decode_loop. destruct (deref f ref) as [e|obj] eqn:Hobj.
  { unfold deref in Hobj. destruct (h5_objects f) as [objects|].
    - destruct (objects !! ref); [done|]. by injection Hobj as <-.
    - by injection Hobj as <-. }
  simpl. destruct (decide (2 ≤ length (dims obj))) as [Hrank|Hrank].
  - destruct (box_of_entry_total (transpose_nd obj)) as [row ->].
    { by rewrite length_dims_transpose_nd. }
    simpl. apply IH. intros Hall. apply Hnot.
    constructor; [by exists obj | done].
  - rewrite box_of_entry_low_rank by (rewrite length_dims_transpose_nd; lia).
    simpl.
    unfold deref in Hobj. by destruct (h5_objects f).
Qed.

(** C4, counterexample.  The second entry of [dangling_h5] names no
    object: resolving it raises before the guarded block is entered, no
    [0, 0, 0, 0] is substituted, and the error leaves both the decoder
    and [extract_bounding_boxes], which writes nothing. *)
Lemma dangling_entry_aborts_the_file :
  decode degenerate dangling_h5 = raise ValueError ∧
  (extract_bounding_boxes degenerate dangling_src dangling_world).2
    = raise ValueError ∧
  writes (trace (extract_bounding_boxes degenerate dangling_src
                   dangling_world).1) = [].
Proof. vm_compute. done. Qed.

Example vector_entry_aborts_the_file :
  decode degenerate vector_h5 = raise ValueError.
Proof. vm_compute. reflexivity. Qed.

Example missing_group_aborts_the_file :
  decode degenerate groupless_h5 = raise KeyError.
Proof. vm_compute. reflexivity. Qed.

(** C4, amended.  For an entry that resolves to an array of rank two or
    more, the guarded computation can only raise [IndexError], and the
    handler turns it into [0, 0, 0, 0]: when every entry is such an
    array, no error leaves the decoder and every entry gets its row.
    An array of rank zero or one raises [ValueError] inside the guarded
    block, and the handler lets it pass.  As soon as one entry is no
    array of rank two or more the decoder raises: [KeyError] when the
    file has no group [#refs#], [ValueError] otherwise. *)
Theorem only_the_box_computation_is_guarded junk f refs :
  h5_Masks f = Some refs →
  (∀ mask e, 2 ≤ length (dims mask) → tight_box_nd mask = raise e →
             e = IndexError ∧ box_of_entry mask = Ok degenerate) ∧
  (∀ mask, length (dims mask) < 2 →
           tight_box_nd mask = raise ValueError ∧
           box_of_entry mask = raise ValueError) ∧
  (Forall (mask_like f) refs →
   ∃ rows, decode junk f = Ok rows ∧ Forall2 (entry_row f) refs rows) ∧
  (¬ Forall (mask_like f) refs →
   (h5_objects f = None → decode junk f = raise KeyError) ∧
   (is_Some (h5_objects f) → decode junk f = raise ValueError)).
Proof.
  intros HM. split_and!.
  - intros mask e Hrank He.
    pose proof (tight_box_nd_raises_only_IndexError _ _ Hrank He) as ->.
    split; [done|]. unfold box_of_entry. by rewrite He.
  - intros mask Hrank. split.
    + by apply tight_box_nd_low_rank.
    + by apply box_of_entry_low_rank.
  - intros Hall. unfold decode, read_Masks. rewrite HM. simpl.
    destruct (decode_loop_entries f refs Hall 0 (replicate (length refs) junk))
      as (rows & Hrows & ->).
    { by rewrite length_replicate. }
    exists rows. split; [|done]. f_equal. simpl.
    rewrite drop_ge by (by rewrite length_replicate). by rewrite app_nil_r.
  - intros Hnot. unfold decode, read_Masks. rewrite HM. simpl.
    rewrite (decode_loop_aborts _ _ Hnot). split.
    + by intros ->.
    + by intros [objects ->].
Qed.

Lemma only_the_box_computation_is_guarded_witness :
  (∀ mask e, 2 ≤ length (dims mask) → tight_box_nd mask = raise e →
             e = IndexError ∧ box_of_entry mask = Ok degenerate) ∧
  (∀ mask, length (dims mask) < 2 →
           tight_box_nd mask = raise ValueError ∧
           box_of_entry mask = raise ValueError) ∧
  (Forall (mask_like vector_h5) [10; 20; 12] →
   ∃ rows, decode degenerate vector_h5 = Ok rows ∧
           Forall2 (entry_row vector_h5) [10; 20; 12] rows) ∧
  (¬ Forall (mask_like vector_h5) [10; 20; 12] →
   (h5_objects vector_h5 = None → decode degenerate vector_h5 = raise KeyError) ∧
   (is_Some (h5_objects vector_h5) →
    decode degenerate vector_h5 = raise ValueError)).
Proof.
  apply (only_the_box_computation_is_guarded degenerate vector_h5 [10; 20; 12]).
  reflexivity.
Defined.

(** ** The file system *)

Lemma writes_app t1 t2 : writes (t1 ++ t2) = writes t1 ++ writes t2.
Proof. apply omap_app. Qed.

Lemma adds_dirs_only_refl m : adds_dirs_only m m.
Proof. intros key. by left. Qed.

Lemma adds_dirs_only_trans m1 m2 m3 :
  adds_dirs_only m1 m2 → adds_dirs_only m2 m3 → adds_dirs_only m1 m3.
Proof.
  intros H12 H23 key. destruct (H12 key) as [E12 | [N1 D2]];
    destruct (H23 key) as [E23 | [N2 D3]].
  - left. congruence.
  - right. split; congruence.
  - right. split; congruence.
  - congruence.
Qed.

Lemma adds_dirs_only_keeps m m' key n :
  adds_dirs_only m m' → m !! key = Some n → m' !! key = Some n.
Proof. intros H Hk. destruct (H key) as [E | [N _]]; congruence. Qed.

Lemma adds_dirs_only_insert m key :
  m !! key = None → adds_dirs_only m (<[key := Dir]> m).
Proof.
  intros Hk key'. destruct (decide (key = key')) as [<- | Hne].
  - right. by rewrite lookup_insert_eq.
  - left. by rewrite lookup_insert_ne.
Qed.

Lemma makedirs_from_effect r todo :
  ∀ done w w' res,
    makedirs_from r done todo w = (w', res) →
    adds_dirs_only (fs w) (fs w') ∧
    writes (trace w') = writes (trace w) ∧
    ∀ key,
      (∀ k, 1 ≤ k ≤ length todo →
            key ≠ str {| root := r; parts := done ++ take k todo |}) →
      fs w' !! key = fs w !! key.
Proof.
  induction todo as [|c todo IH]; intros done w w' res; simpl.
  - intros [= <- <-]. split; [apply adds_dirs_only_refl|]. done.
  - set (here := str {| root := r; parts := done ++ [c] |}).
    assert (∀ k, (done ++ [c]) ++ take k todo = done ++ take (S k) (c :: todo))
      as Hshift by (intros k; by rewrite <- app_assoc).
    assert (∀ key,
              (∀ k, 1 ≤ k ≤ S (length todo) →
                    key ≠ str {| root := r;
                                 parts := done ++ take k (c :: todo) |}) →
              key ≠ here ∧
              ∀ k, 1 ≤ k ≤ length todo →
                   key ≠ str {| root := r;
                                parts := (done ++ [c]) ++ take k todo |})
      as Hkeys.
    { intros key Hkey. split.
      - specialize (Hkey 1). simpl in Hkey. rewrite take_0 in Hkey.
        apply Hkey. lia.
      - intros k Hk. rewrite Hshift. apply Hkey. lia. }
    destruct (fs w !! here) as [[|content]|] eqn:Hhere.
    + intros Hrun. destruct (IH _ _ _ _ Hrun) as (Hg & Hw & Hk).
      split; [done|]. split; [done|].
      intros key Hkey. apply Hk. by apply Hkeys.
    + intros [= <- <-]. split; [apply adds_dirs_only_refl|]. done.
    + intros Hrun. destruct (IH _ _ _ _ Hrun) as (Hg & Hw & Hk). simpl in *.
      split; [|split].
      * eapply adds_dirs_only_trans; [|exact Hg].
        by apply adds_dirs_only_insert.
      * rewrite Hw, writes_app. simpl. by rewrite app_nil_r.
      * intros key Hkey. destruct (Hkeys key Hkey) as [Hne Hrest].
        rewrite (Hk key Hrest). by rewrite lookup_insert_ne.
Qed.

Lemma makedirs_from_ok r todo :
  ∀ done w,
    (∀ k, 1 ≤ k ≤ length todo →
          is_file (fs w !! str {| root := r; parts := done ++ take k todo |})
          = false) →
    ∃ w', makedirs_from r done todo w = (w', Ok tt) ∧
          ∀ k, 1 ≤ k ≤ length todo →
               fs w' !! str {| root := r; parts := done ++ take k todo |}
               = Some Dir.
Proof.
  induction todo as [|c todo IH]; intros done w Hclear; simpl.
  - exists w. split; [done|]. intros k Hk. simpl in Hk. lia.
  - set (here := str {| root := r; parts := done ++ [c] |}).
    assert (∀ k, (done ++ [c]) ++ take k todo = done ++ take (S k) (c :: todo))
      as Hshift by (intros k; by rewrite <- app_assoc).
    assert (is_file (fs w !! here) = false) as Hnf.
    { specialize (Hclear 1). simpl in Hclear. rewrite take_0 in Hclear.
      apply Hclear. lia. }
    destruct (fs w !! here) as [[|content]|] eqn:Hhere; [| done |].
    + destruct (IH (done ++ [c]) w) as (w' & Hrun & Hdirs).
      { intros k Hk. rewrite Hshift. apply Hclear. simpl. lia. }
      exists w'. split; [done|].
      intros [|[|k]] Hk; [lia | | ].
      * simpl. rewrite take_0. fold here.
        destruct (makedirs_from_effect _ _ _ _ _ _ Hrun) as (Hg & _).
        by eapply adds_dirs_only_keeps.
      * rewrite <- Hshift. apply Hdirs. simpl in Hk. lia.
    + destruct (IH (done ++ [c])
                  (log (MadeDir here)
                     {| fs := <[here := Dir]> (fs w); trace := trace w |}))
        as (w' & Hrun & Hdirs).
      { intros k Hk. rewrite Hshift. unfold log. cbn [fs].
        destruct (decide (here = str {| root := r;
                                        parts := done ++ take (S k) (c :: todo) |}))
          as [<- | Hne].
        - by rewrite lookup_insert_eq.
        - rewrite lookup_insert_ne by done. apply Hclear. simpl. lia. }
      exists w'. split; [done|].
      intros [|[|k]] Hk; [lia | | ].
      * simpl. rewrite take_0. fold here.
        destruct (makedirs_from_effect _ _ _ _ _ _ Hrun) as (Hg & _).
        eapply adds_dirs_only_keeps; [exact Hg|]. simpl.
        by rewrite lookup_insert_eq.
      * rewrite <- Hshift. apply Hdirs. simpl in Hk. lia.
Qed.

Lemma makedirs_effect p w w' res :
  makedirs p w = (w', res) →
  adds_dirs_only (fs w) (fs w') ∧
  writes (trace w') = writes (trace w) ∧
  ∀ key,
    (∀ k, 1 ≤ k ≤ length (parts p) →
          key ≠ str {| root := root p; parts := take k (parts p) |}) →
    fs w' !! key = fs w !! key.
Proof. apply makedirs_from_effect. Qed.

Lemma makedirs_ok p w :
  clear_for_dirs (fs w) p →
  ∃ w', makedirs p w = (w', Ok tt) ∧
        ∀ k, 1 ≤ k ≤ length (parts p) →
             fs w' !! str {| root := root p; parts := take k (parts p) |}
             = Some Dir.
Proof.
  intros Hclear. apply makedirs_from_ok. intros k Hk. simpl.
  unfold clear_for_dirs in Hclear. rewrite Forall_forall in Hclear.
  apply Hclear, elem_of_seq. lia.
Qed.

Lemma write_file_effect p c w w' res :
  write_file p c w = (w', res) →
  (res = Ok tt ∧ fs w' = <[p := File c]> (fs w) ∧
   trace w' = trace w ++ [Wrote p c] ∧ fs w !! p ≠ Some Dir) ∨
  (res = raise IsADirectoryError ∧ w' = w ∧ fs w !! p = Some Dir).
Proof.
  unfold write_file. destruct (fs w !! p) as [[|c0]|] eqn:Hp;
    intros [= <- <-]; [right | left | left]; by simpl.
Qed.

(** ** extract_bounding_boxes, step by step *)

Lemma extract_bounding_boxes_steps junk src w :
  extract_bounding_boxes junk src w =
    let w0 := log (Printed ("Processing " +:+ src)) w in
    match fs w !! src with
    | Some (File (Mat f)) =>
        match decode junk f with
        | inr rows =>
            match dst_file_path src with
            | inr dst =>
                match makedirs (parent dst) w0 with
                | (w1, inr _) => np_save dst rows w1
                | (w1, inl e) => (w1, inl e)
                end
            | inl e => (w0, inl e)
            end
        | inl e => (w0, inl e)
        end
    | Some _ => (w0, raise OSError)
    | None => (w0, raise FileNotFoundError)
    end.
Proof.
  unfold extract_bounding_boxes, bind, print, h5py_File, lift. simpl.
  destruct (fs w !! src) as [[|[f| | | |]]|]; try done.
Qed.

Lemma decode_length junk f refs rows :
  h5_Masks f = Some refs → decode junk f = Ok rows →
  length rows = length refs.
Proof.
  unfold decode, read_Masks. intros ->. simpl. intros H.
  apply decode_loop_length in H. by rewrite length_replicate in H.
Qed.

Lemma decode_has_Masks junk f rows :
  decode junk f = Ok rows → ∃ refs, h5_Masks f = Some refs.
Proof.
  unfold decode, read_Masks. destruct (h5_Masks f) as [refs|]; [eauto|done].
Qed.

(** C7. The array file is written by the last step of
    [extract_bounding_boxes], after [decode] has returned the rows of
    all the masks: a run that raises has written no file and has left
    every file as it was (it made directories at most), a run that fails
    while decoding has touched nothing, and a run that returns has
    written the one file with a row for every mask. *)
Theorem array_file_written_last_and_whole junk src w :
  let run := extract_bounding_boxes junk src w in
  (∀ e, run.2 = raise e →
        writes (trace run.1) = writes (trace w) ∧
        adds_dirs_only (fs w) (fs run.1)) ∧
  (∀ f e, fs w !! src = Some (File (Mat f)) → decode junk f = raise e →
          run = (log (Printed ("Processing " +:+ src)) w, raise e)) ∧
  (run.2 = Ok tt →
   ∃ f refs rows dst,
     fs w !! src = Some (File (Mat f)) ∧
     h5_Masks f = Some refs ∧
     decode junk f = Ok rows ∧
     length rows = length refs ∧
     dst_file_path src = Ok dst ∧
     writes (trace run.1) = writes (trace w) ++ [(str dst, Npy rows)] ∧
     fs run.1 !! str dst = Some (File (Npy rows))).
Proof.
  intros run. subst run. rewrite extract_bounding_boxes_steps. cbv zeta.
  set (w0 := log (Printed ("Processing " +:+ src)) w).
  assert (writes (trace w0) = writes (trace w)) as Hw0.
  { unfold w0, log. simpl. rewrite writes_app. simpl. by rewrite app_nil_r. }
  assert (∀ e, writes (trace (w0, @raise unit e).1) = writes (trace w) ∧
               adds_dirs_only (fs w) (fs (w0, @raise unit e).1)) as Hearly.
  { intros e. split; [done | apply adds_dirs_only_refl]. }
  destruct (fs w !! src) as [[|[f| | | |]]|] eqn:Hsrc;
    try (split_and!; [intros e _; apply Hearly | by intros | by intros]).
  destruct (decode junk f) as [e|rows] eqn:Hdec.
  { split_and!; [intros e' _; apply Hearly | | by intros].
    intros f' e' [= <-]. rewrite Hdec. by intros [= <-]. }
  destruct (dst_file_path src) as [e|dst] eqn:Hdst.
  { split_and!; [intros e' _; apply Hearly | | by intros].
    intros f' e' [= <-]. by rewrite Hdec. }
  destruct (makedirs (parent dst) w0) as [w1 [e|[]]] eqn:Hmk;
    destruct (makedirs_effect _ _ _ _ Hmk) as (Hg & Hw & _).
  { split_and!; [| | by intros].
    - intros e' _. simpl. split; [congruence | done].
    - intros f' e' [= <-]. by rewrite Hdec. }
  unfold np_save. destruct (write_file (str dst) (Npy rows) w1) as [w2 res] eqn:Hwr.
  destruct (write_file_effect _ _ _ _ _ Hwr)
    as [(-> & Hfs & Htr & _) | (-> & -> & _)].
  - split_and!; [by intros | |].
    + intros f' e' [= <-]. by rewrite Hdec.
    + intros _. destruct (decode_has_Masks _ _ _ Hdec) as [refs HM].
      exists f, refs, rows, dst. split_and!; try done.
      * by eapply decode_length.
      * simpl. rewrite Htr, writes_app, Hw, Hw0. done.
      * simpl. rewrite Hfs. by rewrite lookup_insert_eq.
  - split_and!; [| | by intros].
    + intros e' _. simpl. split; [congruence | done].
    + intros f' e' [= <-]. by rewrite Hdec.
Qed.

(** ** Strings and paths *)

Lemma app_cons c s t : String c s +:+ t = String c (s +:+ t).
Proof. reflexivity. Qed.

Lemma app_empty_l t : "" +:+ t = t.
Proof. reflexivity. Qed.

Lemma app_empty_r s : s +:+ "" = s.
Proof. induction s as [|c s IH]; [done|]. by rewrite app_cons, IH. Qed.


Lemma length_app_string a b :
  String.length (a +:+ b) = String.length a + String.length b.
Proof. induction a as [|x a IH]; [done|]. rewrite app_cons. simpl. by rewrite IH. Qed.

Lemma app_inv_tail_string a b c : a +:+ c = b +:+ c → a = b.
Proof.
  revert b. induction a as [|x a IH]; intros [|y b] H.
  - done.
  - apply (f_equal String.length) in H.
    rewrite app_empty_l, app_cons in H. simpl in H.
    rewrite length_app_string in H. lia.
  - apply (f_equal String.length) in H.
    rewrite app_empty_l, app_cons in H. simpl in H.
    rewrite length_app_string in H. lia.
  - rewrite !app_cons in H. injection H as -> H. f_equal. by apply IH.
Qed.

Lemma substring_app_prefix a b :
  String.substring 0 (String.length a) (a +:+ b) = a.
Proof.
  induction a as [|x a IH].
  - by destruct b.
  - rewrite app_cons. simpl. by rewrite IH.
Qed.

Lemma drop_last4_app name ext :
  String.length ext = 4 → drop_last4 (name +:+ ext) = name.
Proof.
  intros Hext. unfold drop_last4. rewrite length_app_string, Hext.
  replace (String.length name + 4 - 4) with (String.length name) by lia.
  apply substring_app_prefix.
Qed.

Lemma has_slash_app a b : has_slash (a +:+ b) = has_slash a || has_slash b.
Proof.
  induction a as [|x a IH]; [done|]. rewrite app_cons. simpl.
  by rewrite IH, orb_assoc.
Qed.

Lemma split_slash_not_nil s : split_slash s ≠ [].
Proof.
  destruct s as [|c s]; simpl; [done|].
  destruct (Ascii.eqb c "/"); [done|]. by destruct (split_slash s).
Qed.

Lemma split_slash_no_slash s : has_slash s = false → split_slash s = [s].
Proof.
  induction s as [|c s IH]; simpl; [done|].
  destruct (Ascii.eqb c "/"); [done|]. simpl. intros H. by rewrite (IH H).
Qed.

Lemma split_slash_parts s : Forall (fun c => has_slash c = false) (split_slash s).
Proof.
  induction s as [|c s IH]; simpl.
  - by constructor.
  - destruct (Ascii.eqb c "/") eqn:Hc; [by constructor|].
    destruct (split_slash s) as [|h t]; [by constructor; [simpl; rewrite Hc|]|].
    inversion IH as [|?? Hh Ht]; subst. constructor; [|done].
    simpl. by rewrite Hc.
Qed.

Lemma basename_no_slash s : has_slash (basename s) = false.
Proof.
  unfold basename. destruct (last (split_slash s)) as [b|] eqn:Hl; [|done].
  simpl. pose proof (split_slash_parts s) as Hall.
  rewrite Forall_forall in Hall. by apply Hall, last_Some_elem_of.
Qed.

Lemma join_slash_cons a l :
  l ≠ [] → join_slash (a :: l) = a +:+ "/" +:+ join_slash l.
Proof. by destruct l. Qed.

Lemma length_join_slash_app l1 l2 :
  l1 ≠ [] → l2 ≠ [] →
  String.length (join_slash (l1 ++ l2)) =
    String.length (join_slash l1) + 1 + String.length (join_slash l2).
Proof.
  intros H1 H2. induction l1 as [|a l1 IH]; [done|].
  destruct l1 as [|b l1].
  - simpl app. rewrite join_slash_cons by done.
    rewrite !length_app_string. simpl. lia.
  - change ((a :: b :: l1) ++ l2) with (a :: (b :: l1) ++ l2).
    rewrite !join_slash_cons by done.
    rewrite !length_app_string, IH by done. simpl. lia.
Qed.

Lemma str_nonempty_parts r l :
  l ≠ [] → str {| root := r; parts := l |} = r +:+ join_slash l.
Proof. by destruct l. Qed.

(** A proper ancestor has a shorter name. *)
Lemma str_take_shorter r l k :
  1 ≤ k → k < length l →
  String.length (str {| root := r; parts := take k l |})
  < String.length (str {| root := r; parts := l |}).
Proof.
  intros Hk1 Hk2.
  assert (take k l ≠ []) as Ht.
  { intros E. apply (f_equal length) in E. rewrite length_take in E.
    simpl in E. lia. }
  assert (drop k l ≠ []) as Hd.
  { intros E. apply (f_equal length) in E. rewrite length_drop in E.
    simpl in E. lia. }
  assert (l ≠ []) as Hl by (intros ->; simpl in Hk2; lia).
  rewrite !str_nonempty_parts by done. rewrite !length_app_string.
  rewrite <- (take_drop k l) at 2.
  rewrite length_join_slash_app by done. lia.
Qed.

Lemma str_take_le r l k :
  1 ≤ k → l ≠ [] →
  String.length (str {| root := r; parts := take k l |})
  ≤ String.length (str {| root := r; parts := l |}).
Proof.
  intros Hk Hl. destruct (decide (k < length l)) as [Hlt|Hge].
  - pose proof (str_take_shorter r l k Hk Hlt). lia.
  - by rewrite take_ge by lia.
Qed.

Lemma Path_BBoxes n :
  has_slash n = false →
  Path ("BBoxes/" +:+ n +:+ ".npy") =
    {| root := ""; parts := ["BBoxes"; n +:+ ".npy"] |}.
Proof.
  intros Hn. unfold Path. rewrite !app_cons, app_empty_l. f_equal.
  assert (has_slash (n +:+ ".npy") = false) as Hs
    by (rewrite has_slash_app, Hn; done).
  cbn [split_slash Ascii.eqb Bool.eqb]. rewrite (split_slash_no_slash _ Hs).
  assert (is_part (n +:+ ".npy")) as Hp.
  { split; intros E; apply (f_equal String.length) in E;
      rewrite length_app_string in E; simpl in E; lia. }
  rewrite filter_cons_True by (split; done).
  rewrite filter_cons_True by done. done.
Qed.

(** ** Where the array goes *)

Lemma dst_file_path_parts src r ps d1 d0 name ext :
  Path src = {| root := r; parts := ps ++ [d1; d0; name +:+ ext] |} →
  basename src = name +:+ ext →
  String.length ext = 4 →
  dst_file_path src =
    Ok {| root := r; parts := ps ++ ["BBoxes"; name +:+ ".npy"] |}.
Proof.
  intros HP Hb Hext. unfold dst_file_path, parents. rewrite HP, Hb. simpl.
  rewrite length_app. simpl. destruct (decide _) as [_|Hn]; [|lia]. simpl.
  replace (length ps + 3 - 3) with (length ps) by lia.
  rewrite take_app_length. rewrite (drop_last4_app _ _ Hext).
  assert (has_slash name = false) as Hname.
  { pose proof (basename_no_slash src) as H. rewrite Hb, has_slash_app in H.
    by apply orb_false_elim in H as [H _]. }
  unfold truediv. rewrite (Path_BBoxes _ Hname). done.
Qed.

(** C6, counterexample.  For a file of the data set the array goes two
    directories above [ground_truth_bb], not next to it, and a name
    whose extension has two letters loses two more characters. *)
Lemma array_goes_two_levels_up :
  (let? p := dst_file_path sample_src in Ok (str p))
    = Ok "/data/h36m/S1/BBoxes/Directions.54138969.npy" ∧
  claimed_dst_file_path "/data/h36m/S1" "MySegmentsMat" "Directions.54138969"
    = "/data/h36m/S1/MySegmentsMat/BBoxes/Directions.54138969.npy" ∧
  (let? p := dst_file_path sample_src in Ok (str p))
    ≠ Ok (claimed_dst_file_path "/data/h36m/S1" "MySegmentsMat"
            "Directions.54138969") ∧
  fs (extract_bounding_boxes degenerate sample_src sample_world).1
    !! claimed_dst_file_path "/data/h36m/S1" "MySegmentsMat"
         "Directions.54138969" = None ∧
  (let? p := dst_file_path
               "/data/h36m/S1/MySegmentsMat/ground_truth_bb/Directions.54138969.h5"
   in Ok (str p))
    = Ok "/data/h36m/S1/BBoxes/Directions.5413896.npy".
Proof. vm_compute. split_and!; done. Qed.

(** C6, amended.  Let the parts of the input path end in
    [d1/d0/name ext], [ext] being the last four characters of the file
    name ([.mat] for the files [main] finds), and let [ps] be the parts
    above [d1].  Then the array is written to [ps/BBoxes/name.npy]: the
    directory [ps/BBoxes] is made if it is absent, and whatever file was
    at the destination is replaced. *)
Theorem array_written_two_levels_up junk src w f rows r ps d1 d0 name ext :
  fs w !! src = Some (File (Mat f)) →
  decode junk f = Ok rows →
  Path src = {| root := r; parts := ps ++ [d1; d0; name +:+ ext] |} →
  basename src = name +:+ ext →
  String.length ext = 4 →
  let dir := {| root := r; parts := ps ++ ["BBoxes"] |} in
  let dst := {| root := r; parts := ps ++ ["BBoxes"; name +:+ ".npy"] |} in
  clear_for_dirs (fs w) dir →
  fs w !! str dst ≠ Some Dir →
  ∃ w', extract_bounding_boxes junk src w = (w', Ok tt) ∧
        fs w' !! str dir = Some Dir ∧
        fs w' !! str dst = Some (File (Npy rows)) ∧
        writes (trace w') = writes (trace w) ++ [(str dst, Npy rows)].
Proof.
  intros Hsrc Hdec HP Hb Hext dir dst Hclear Hnodir.
  rewrite extract_bounding_boxes_steps. cbv zeta. rewrite Hsrc, Hdec.
  rewrite (dst_file_path_parts _ _ _ _ _ _ _ HP Hb Hext).
  subst dir dst.
  set (dst := {| root := r; parts := ps ++ ["BBoxes"; name +:+ ".npy"] |}) in *.
  set (dir := {| root := r; parts := ps ++ ["BBoxes"] |}) in *.
  set (w0 := log (Printed ("Processing " +:+ src)) w).
  unfold Ok. cbn beta iota.
  assert (ps ++ ["BBoxes"; name +:+ ".npy"]
          = (ps ++ ["BBoxes"]) ++ [name +:+ ".npy"]) as Hsplit
    by (by rewrite <- app_assoc).
  assert (parent dst = dir) as ->.
  { unfold parent, dst, dir. simpl. f_equal. rewrite Hsplit.
    rewrite (length_app (ps ++ ["BBoxes"])). simpl.
    replace (length (ps ++ ["BBoxes"]) + 1 - 1)
      with (length (ps ++ ["BBoxes"])) by lia.
    apply take_app_length. }
  assert (∀ k, 1 ≤ k ≤ length (parts dir) →
               str {| root := root dir; parts := take k (parts dir) |}
               ≠ str dst) as Hshort.
  { intros k Hk E. apply (f_equal String.length) in E. simpl in Hk, E.
    pose proof (str_take_shorter r (parts dst) k) as Hlt. simpl in Hlt.
    rewrite Hsplit, length_app in Hlt. simpl in Hlt.
    rewrite take_app_le in Hlt by lia.
    unfold dst in E. rewrite Hsplit in E. lia. }
  destruct (makedirs_ok dir w0 Hclear) as (w1 & Hmk & Hdirs). rewrite Hmk.
  destruct (makedirs_effect _ _ _ _ Hmk) as (Hg & Hw & Hch).
  assert (fs w1 !! str dst = fs w !! str dst) as Hsame.
  { apply Hch. intros k Hk E. by apply (Hshort k Hk). }
  unfold np_save, write_file. rewrite Hsame.
  assert (fs w1 !! str dir = Some Dir) as Hdir.
  { specialize (Hdirs (length (parts dir))). rewrite take_ge in Hdirs by done.
    apply Hdirs. unfold dir. simpl. rewrite length_app. simpl. lia. }
  assert (str dst ≠ str dir) as Hne.
  { intros E. apply (Hshort (length (parts dir))).
    - unfold dir. simpl. rewrite length_app. simpl. lia.
    - rewrite take_ge by done. by destruct dir. }
  destruct (fs w !! str dst) as [[|c0]|] eqn:Hold; [done | |];
    (eexists; split; [done|]; simpl; split_and!;
      [ by rewrite lookup_insert_ne
      | by rewrite lookup_insert_eq
      | rewrite writes_app, Hw; unfold w0, log; simpl;
        rewrite writes_app; simpl; by rewrite app_nil_r ]).
Qed.

Lemma array_written_two_levels_up_witness :
  ∃ w', extract_bounding_boxes degenerate sample_src sample_world = (w', Ok tt) ∧
        fs w' !! "/data/h36m/S1/BBoxes" = Some Dir ∧
        fs w' !! "/data/h36m/S1/BBoxes/Directions.54138969.npy"
          = Some (File (Npy [Box 1 1 3 2; Box 0 0 0 0; Box 2 1 1 1])) ∧
        writes (trace w') =
          writes (trace sample_world) ++
          [("/data/h36m/S1/BBoxes/Directions.54138969.npy",
            Npy [Box 1 1 3 2; Box 0 0 0 0; Box 2 1 1 1])].
Proof.
  apply (array_written_two_levels_up degenerate sample_src sample_world
           sample_h5 [Box 1 1 3 2; Box 0 0 0 0; Box 2 1 1 1]
           "/" ["data"; "h36m"; "S1"] "MySegmentsMat" "ground_truth_bb"
           "Directions.54138969" ".mat").
  - vm_compute. reflexivity.
  - vm_compute. reflexivity.
  - vm_compute. reflexivity.
  - vm_compute. reflexivity.
  - reflexivity.
  - apply (bool_decide_unpack _). vm_compute. exact I.
  - vm_compute. discriminate.
Defined.

(** ** Frame names *)

Lemma uint_of_string_zeros k s :
  NilEmpty.uint_of_string (zeros k +:+ s)
  = Nat.iter k Decimal.D0 <$> NilEmpty.uint_of_string s.
Proof.
  induction k as [|k IH].
  - simpl zeros. rewrite app_empty_l. by destruct (NilEmpty.uint_of_string s).
  - simpl zeros. rewrite app_cons. simpl. rewrite IH.
    by destruct (NilEmpty.uint_of_string s).
Qed.

Lemma of_uint_iter_D0 k d : Nat.of_uint (Nat.iter k Decimal.D0 d) = Nat.of_uint d.
Proof. induction k as [|k IH]; [done|]. simpl. exact IH. Qed.

Lemma length_zeros k : String.length (zeros k) = k.
Proof. induction k; simpl; congruence. Qed.

Lemma length_string_of_uint d :
  String.length (NilEmpty.string_of_uint d) = Decimal.nb_digits d.
Proof. induction d; simpl; congruence. Qed.

Lemma usize_nb_digits d : Unsigned.usize d = Decimal.nb_digits d.
Proof. induction d; simpl; congruence. Qed.

Lemma of_uint_leading d acc :
  acc * 10 ^ Decimal.nb_digits d ≤ Nat.of_uint_acc d acc.
Proof. rewrite Unsigned.of_uint_acc_spec. rewrite (usize_nb_digits d). lia. Qed.

Lemma of_uint_acc_below d :
  ∀ acc, Nat.of_uint_acc d acc < (acc + 1) * 10 ^ Decimal.nb_digits d.
Proof.
  induction d; intros acc; simpl; [lia|..];
    rewrite Nat.tail_mul_spec;
    (eapply Nat.lt_le_trans; [apply IHd|]); nia.
Qed.

Lemma to_uint_normal i : Decimal.unorm (Nat.to_uint i) = Nat.to_uint i.
Proof. rewrite <- Unsigned.to_of. by rewrite Unsigned.of_to. Qed.

Lemma leading_zero_alone i d :
  Nat.to_uint i = Decimal.D0 d → d = Decimal.Nil.
Proof.
  intros E. pose proof (to_uint_normal i) as Hn. rewrite E in Hn.
  destruct (decide (Decimal.nb_digits d = 0)) as [E0|Hne];
    [by apply nb_digits_0|].
  apply nb_digits_n0 in Hne. pose proof (nb_digits_unorm d Hne) as Hle.
  change (Decimal.unorm (Decimal.D0 d)) with (Decimal.unorm d) in Hn.
  rewrite Hn in Hle. simpl in Hle. lia.
Qed.

Lemma nb_digits_to_uint i k :
  i < 10 ^ k → 0 < k → Decimal.nb_digits (Nat.to_uint i) ≤ k.
Proof.
  intros Hi Hk.
  pose proof (Unsigned.of_to i) as Hv. unfold Nat.of_uint in Hv.
  assert (∀ d a, 0 < a → Nat.of_uint_acc d a = i → S (Decimal.nb_digits d) ≤ k)
    as Hlead.
  { intros d a Ha Hd. pose proof (of_uint_leading d a) as Hl.
    destruct (decide (S (Decimal.nb_digits d) ≤ k)) as [|Hgt]; [done|].
    assert (10 ^ k ≤ 10 ^ Decimal.nb_digits d)
      by (apply Nat.pow_le_mono_r; lia).
    nia. }
  destruct (Nat.to_uint i) as [|d|d|d|d|d|d|d|d|d|d] eqn:E; simpl in *;
    try lia;
    try (rewrite Nat.tail_mul_spec in Hv; eapply Hlead; [|exact Hv]; lia).
  apply leading_zero_alone in E as ->. simpl. lia.
Qed.

Lemma nb_digits_to_uint_ge i k :
  10 ^ k ≤ i → k < Decimal.nb_digits (Nat.to_uint i).
Proof.
  intros Hi. pose proof (Unsigned.of_to i) as Hv. unfold Nat.of_uint in Hv.
  pose proof (of_uint_acc_below (Nat.to_uint i) 0) as Hb. rewrite Hv in Hb.
  destruct (decide (k < Decimal.nb_digits (Nat.to_uint i))) as [|Hge]; [done|].
  assert (10 ^ Decimal.nb_digits (Nat.to_uint i) ≤ 10 ^ k)
    by (apply Nat.pow_le_mono_r; lia).
  lia.
Qed.

Lemma length_format_06d i :
  i < 10 ^ 6 → String.length (format_06d i) = 6.
Proof.
  intros Hi. unfold format_06d.
  rewrite length_app_string, length_zeros, length_string_of_uint.
  pose proof (nb_digits_to_uint i 6 Hi). lia.
Qed.

Lemma format_06d_unpadded i :
  10 ^ 6 ≤ i → ∃ c s, format_06d i = String c s ∧ c ≠ "0"%char.
Proof.
  intros Hi. pose proof (nb_digits_to_uint_ge i 6 Hi) as Hlen. clear Hi.
  unfold format_06d. rewrite length_string_of_uint.
  replace (6 - Decimal.nb_digits (Nat.to_uint i)) with 0 by lia.
  destruct (Nat.to_uint i) as [|d|d|d|d|d|d|d|d|d|d] eqn:E; simpl in *;
    try lia; try (eexists _, _; split; [reflexivity | discriminate]).
  apply leading_zero_alone in E as ->. simpl in Hlen. lia.
Qed.

Lemma format_06d_read_back i :
  Nat.of_uint <$> NilEmpty.uint_of_string (format_06d i) = Some i.
Proof.
  unfold format_06d. rewrite uint_of_string_zeros, NilEmpty.usu. simpl.
  by rewrite of_uint_iter_D0, DecimalNat.Unsigned.of_to.
Qed.

Lemma format_06d_inj i j : format_06d i = format_06d j → i = j.
Proof.
  intros E. pose proof (format_06d_read_back i) as Hi.
  rewrite E, format_06d_read_back in Hi. by injection Hi.
Qed.

Lemma frame_path_shape folder :
  ∃ sep, ∀ i,
    frame_path folder i = folder +:+ sep +:+ "frame_" +:+ format_06d i +:+ ".jpg".
Proof.
  unfold frame_path, os_path_join.
  destruct (bool_decide (folder = "") || ends_with_slash folder).
  - exists "". intros i. by rewrite !app_cons, app_empty_l.
  - exists "/". intros i. by rewrite !app_cons, !app_empty_l.
Qed.

Lemma frame_path_inj folder i j :
  frame_path folder i = frame_path folder j → i = j.
Proof.
  destruct (frame_path_shape folder) as [sep Hsh]. rewrite !Hsh. intros E.
  do 3 apply String.app_inj in E.
  by apply app_inv_tail_string, format_06d_inj in E.
Qed.

Lemma frame_path_longer folder i :
  String.length folder < String.length (frame_path folder i).
Proof.
  destruct (frame_path_shape folder) as [sep Hsh]. rewrite Hsh.
  rewrite !length_app_string. simpl. lia.
Qed.

Lemma selected_iff i : selected i = true ↔ i mod 5 = 0 ∨ i mod 64 = 0.
Proof.
  unfold selected. rewrite orb_true_iff, !Nat.eqb_eq. done.
Qed.

Lemma elem_of_sampled n i :
  i ∈ sampled n ↔ i < n ∧ (i mod 5 = 0 ∨ i mod 64 = 0).
Proof.
  unfold sampled. rewrite list_elem_of_filter, elem_of_seq, selected_iff.
  split; [intros [? ?]; split; [lia | done] | intros [? ?]; split; [done | lia]].
Qed.

Lemma NoDup_sampled n : NoDup (sampled n).
Proof. apply NoDup_filter, NoDup_seq. Qed.

(** ** The frame loop *)

Lemma filter_ext_elem {A} (P Q : A → Prop)
    `{!∀ x, Decision (P x), !∀ x, Decision (Q x)} (l : list A) :
  (∀ x, x ∈ l → (P x ↔ Q x)) → filter P l = filter Q l.
Proof.
  induction l as [|a l IH]; intros Hext; [done|].
  rewrite !filter_cons.
  rewrite IH by (intros x Hx; apply Hext; by right).
  pose proof (Hext a (list_elem_of_here _ _)) as Ha.
  destruct (decide (P a)), (decide (Q a)); tauto.
Qed.

Lemma due_cons m folder i im rest :
  due m folder i (im :: rest) =
    if decide (selected i = true ∧ m !! frame_path folder i = None)
    then (i, im) :: due m folder (S i) rest
    else due m folder (S i) rest.
Proof. unfold due. simpl. by rewrite filter_cons. Qed.

Lemma due_index m folder i reader k im :
  (k, im) ∈ due m folder i reader →
  i ≤ k < i + length reader ∧ reader !! (k - i) = Some im ∧
  selected k = true ∧ m !! frame_path folder k = None.
Proof.
  revert i. induction reader as [|im0 rest IH]; intros i.
  { unfold due. simpl. rewrite filter_nil. by intros ?%elem_of_nil. }
  rewrite due_cons. destruct (decide _) as [[Hs Hm]|_].
  - intros [[= -> ->] | Hin]%elem_of_cons.
    + simpl. rewrite Nat.sub_diag. split_and!; [lia | lia | done | done | done].
    + destruct (IH _ Hin) as (Hk & Hl & ? & ?). simpl.
      split_and!; [lia | lia | | done | done].
      replace (k - i) with (S (k - S i)) by lia. done.
  - intros Hin. destruct (IH _ Hin) as (Hk & Hl & ? & ?). simpl.
    split_and!; [lia | lia | | done | done].
    replace (k - i) with (S (k - S i)) by lia. done.
Qed.

Lemma due_insert_earlier m folder i reader k n :
  k < i →
  due (<[frame_path folder k := n]> m) folder i reader = due m folder i reader.
Proof.
  intros Hk. unfold due. apply filter_ext_elem. intros [j im] Hin. simpl.
  apply elem_of_zip_l, elem_of_seq in Hin.
  rewrite lookup_insert_ne; [done|].
  intros E%frame_path_inj. lia.
Qed.

Lemma frames_loop_run folder reader :
  ∀ i w,
    ∃ w',
      frames_loop folder i reader w = (w', Ok tt) ∧
      trace w' =
        trace w ++
        ((fun p => Wrote (frame_path folder p.1) (Jpg p.2))
           <$> due (fs w) folder i reader) ∧
      (∀ key n, fs w !! key = Some n → fs w' !! key = Some n) ∧
      (∀ key, (∀ k, i ≤ k < i + length reader → key ≠ frame_path folder k) →
              fs w' !! key = fs w !! key) ∧
      (∀ j im, reader !! j = Some im → selected (i + j) = true →
               fs w !! frame_path folder (i + j) = None →
               fs w' !! frame_path folder (i + j) = Some (File (Jpg im))).
Proof.
  induction reader as [|im rest IH]; intros i w.
  { exists w. simpl. split_and!; try done.
    unfold due. simpl. by rewrite app_nil_r. }
  simpl frames_loop. unfold bind. rewrite due_cons.
  destruct (selected i) eqn:Hsel; cycle 1.
  { (* the frame is not one of those to save *)
    unfold ret. destruct (IH (S i) w) as (w' & Hrun & Htr & Hkeep & Hoth & Hnew).
    exists w'. rewrite decide_False by (intros [? _]; done).
    split_and!; try done.
    - intros key Hkey. apply Hoth. intros k Hk. apply Hkey. simpl. lia.
    - intros [|j] im' Hj Hs Hm.
      + rewrite Nat.add_0_r in Hs. congruence.
      + replace (i + S j) with (S i + j) in * by lia. by apply Hnew. }
  unfold path_exists. simpl.
  destruct (fs w !! frame_path folder i) as [n0|] eqn:Hthere.
  { (* the file is there already *)
    rewrite bool_decide_true by eauto. simpl. unfold ret.
    destruct (IH (S i) w) as (w' & Hrun & Htr & Hkeep & Hoth & Hnew).
    exists w'.
    split_and!; try done.
    - intros key Hkey. apply Hoth. intros k Hk. apply Hkey. simpl. lia.
    - intros [|j] im' Hj Hs Hm.
      + rewrite Nat.add_0_r in Hm. congruence.
      + replace (i + S j) with (S i + j) in * by lia. by apply Hnew. }
  (* the file is written *)
  rewrite bool_decide_false by (by intros [? ?]). simpl.
  unfold imwrite, write_file. rewrite Hthere.
  set (w1 := log (Wrote (frame_path folder i) (Jpg im))
               {| fs := <[frame_path folder i := File (Jpg im)]> (fs w);
                  trace := trace w |}).
  destruct (IH (S i) w1) as (w' & Hrun & Htr & Hkeep & Hoth & Hnew).
  exists w'. split_and!.
  - done.
  - rewrite Htr. unfold w1 at 1 2. simpl.
    rewrite due_insert_earlier by lia. by rewrite <- app_assoc.
  - intros key n Hkey. apply Hkeep. unfold w1. simpl.
    rewrite lookup_insert_ne; [done|]. intros <-. congruence.
  - intros key Hkey. rewrite Hoth.
    + unfold w1. simpl. apply lookup_insert_ne. intros E. symmetry in E.
      revert E. apply Hkey. simpl. lia.
    + intros k Hk. apply Hkey. simpl. lia.
  - intros [|j] im' Hj Hs Hm.
    + rewrite Nat.add_0_r. simpl in Hj. injection Hj as <-.
      apply Hkeep. unfold w1. simpl. by rewrite lookup_insert_eq.
    + replace (i + S j) with (S i + j) in * by lia. apply Hnew; [done | done |].
      unfold w1. simpl. rewrite lookup_insert_ne; [done|].
      intros E%frame_path_inj. lia.
Qed.

Lemma frames_loop_noop folder reader :
  ∀ i w, due (fs w) folder i reader = [] →
         frames_loop folder i reader w = (w, Ok tt).
Proof.
  induction reader as [|im rest IH]; intros i w; [done|].
  rewrite due_cons. simpl frames_loop. unfold bind.
  destruct (decide _) as [|Hno]; [done|]. intros Hdue.
  destruct (selected i) eqn:Hsel; [|unfold ret; by apply IH].
  unfold path_exists. simpl.
  destruct (fs w !! frame_path folder i) as [n|] eqn:Hthere.
  - rewrite bool_decide_true by eauto. simpl. unfold ret. by apply IH.
  - by destruct Hno.
Qed.

Lemma elem_of_due m folder reader :
  ∀ s k im,
    (k, im) ∈ due m folder s reader ↔
    s ≤ k ∧ reader !! (k - s) = Some im ∧
    selected k = true ∧ m !! frame_path folder k = None.
Proof.
  induction reader as [|im0 rest IH]; intros s k im.
  { unfold due. simpl. split; [by intros ?%elem_of_nil | by intros (_ & ? & _)]. }
  rewrite due_cons. split.
  - intros Hin. destruct (due_index m folder s (im0 :: rest) k im) as (? & ? & ? & ?).
    { by rewrite due_cons. }
    split_and!; [lia | done | done | done].
  - intros (Hs & Hl & Hsel & Hm).
    destruct (decide (k = s)) as [-> | Hne].
    + rewrite Nat.sub_diag in Hl. injection Hl as ->.
      rewrite decide_True by done. left.
    + assert ((k, im) ∈ due m folder (S s) rest) as Hin.
      { apply IH. split_and!; [lia | | done | done].
        replace (k - s) with (S (k - S s)) in Hl by lia. done. }
      destruct (decide _); [by right | done].
Qed.

Lemma NoDup_due_indices m folder reader :
  ∀ s, NoDup (due m folder s reader).*1.
Proof.
  induction reader as [|im rest IH]; intros s.
  { unfold due. simpl. constructor. }
  rewrite due_cons. destruct (decide _); [|apply IH].
  rewrite fmap_cons. constructor; [|apply IH]. simpl.
  intros ([k im'] & -> & Hin)%list_elem_of_fmap.
  apply due_index in Hin. simpl in Hin. lia.
Qed.

Lemma due_fresh m folder reader :
  ∀ s,
    (∀ k, s ≤ k < s + length reader → m !! frame_path folder k = None) →
    (due m folder s reader).*1
    = filter (fun i => selected i = true) (seq s (length reader)).
Proof.
  induction reader as [|im rest IH]; intros s Hfresh; [done|].
  rewrite due_cons. simpl length. simpl seq. rewrite filter_cons.
  assert ((due m folder (S s) rest).*1
          = filter (fun i => selected i = true) (seq (S s) (length rest)))
    as Hrest.
  { apply IH. intros k Hk. apply Hfresh. simpl. lia. }
  destruct (decide (selected s = true)) as [Hsel|Hsel].
  - rewrite decide_True by (split; [done | apply Hfresh; simpl; lia]).
    rewrite fmap_cons. simpl. by rewrite Hrest.
  - rewrite decide_False by (intros [? _]; done). done.
Qed.

Global Instance frame_path_Inj folder : Inj (=) (=) (frame_path folder).
Proof. intros i j. apply frame_path_inj. Qed.

Lemma writes_Wrote folder (l : list (nat * frame)) :
  writes ((fun p => Wrote (frame_path folder p.1) (Jpg p.2)) <$> l)
  = frame_write folder <$> l.
Proof.
  induction l as [|p l IH]; [done|].
  rewrite !fmap_cons. change (writes (?e :: ?t)) with (writes [e] ++ writes t).
  by rewrite IH.
Qed.

Lemma frame_write_paths folder (l : list (nat * frame)) :
  (frame_write folder <$> l).*1 = frame_path folder <$> l.*1.
Proof. induction l as [|p l IH]; [done|]. rewrite !fmap_cons. by rewrite IH. Qed.

(** ** extract_frames, step by step *)

Lemma extract_frames_steps src w :
  extract_frames src w =
    let w0 := log (Printed ("Processing " +:+ src)) w in
    match dst_folder_path src with
    | inl e => (w0, inl e)
    | inr dst =>
        match makedirs dst w0 with
        | (w1, inl e) => (w1, inl e)
        | (w1, inr _) =>
            match fs w1 !! src with
            | Some (File (Mp4 frames)) => frames_loop (str dst) 0 frames w1
            | Some _ => (w1, raise OSError)
            | None => (w1, raise FileNotFoundError)
            end
        end
    end.
Proof.
  unfold extract_frames, bind, print, lift, get_reader. simpl.
  destruct (dst_folder_path src) as [e|dst]; [done|].
  destruct (makedirs dst _) as [w1 [e|[]]]; [done|].
  destruct (fs w1 !! src) as [[|[| | | |]]|]; done.
Qed.

Lemma makedirs_from_noop r todo :
  ∀ above w,
    (∀ k, 1 ≤ k ≤ length todo →
          fs w !! str {| root := r; parts := above ++ take k todo |} = Some Dir) →
    makedirs_from r above todo w = (w, Ok tt).
Proof.
  induction todo as [|c todo IH]; intros above w Hdirs; [done|]. simpl.
  pose proof (Hdirs 1) as H1. simpl in H1. rewrite take_0 in H1.
  rewrite H1 by lia. apply IH. intros k Hk.
  rewrite <- app_assoc. apply (Hdirs (S k)). simpl. lia.
Qed.

Lemma frame_path_not_a_prefix dst k i :
  1 ≤ k ≤ length (parts dst) →
  frame_path (str dst) i
  ≠ str {| root := root dst; parts := take k (parts dst) |}.
Proof.
  intros Hk E. apply (f_equal String.length) in E.
  pose proof (frame_path_longer (str dst) i) as Hlong.
  assert (parts dst ≠ []) as Hne.
  { intros E'. rewrite E' in Hk. simpl in Hk. lia. }
  pose proof (str_take_le (root dst) (parts dst) k (proj1 Hk) Hne) as Hle.
  destruct dst as [r ps]. simpl in *. lia.
Qed.

Lemma extract_frames_run src w frames dst :
  fs w !! src = Some (File (Mp4 frames)) →
  dst_folder_path src = Ok dst →
  clear_for_dirs (fs w) dst →
  ∃ w',
    extract_frames src w = (w', Ok tt) ∧
    writes (trace w') =
      writes (trace w) ++ (frame_write (str dst) <$> due (fs w) (str dst) 0 frames) ∧
    (∀ key n, fs w !! key = Some n → fs w' !! key = Some n) ∧
    (∀ j im, frames !! j = Some im → selected j = true →
             fs w !! frame_path (str dst) j = None →
             fs w' !! frame_path (str dst) j = Some (File (Jpg im))) ∧
    (∀ k, 1 ≤ k ≤ length (parts dst) →
          fs w' !! str {| root := root dst; parts := take k (parts dst) |}
          = Some Dir).
Proof.
  intros Hsrc Hdst Hclear. rewrite extract_frames_steps. cbv zeta.
  rewrite Hdst. unfold Ok at 1. cbn beta iota.
  set (w0 := log (Printed ("Processing " +:+ src)) w).
  destruct (makedirs_ok dst w0 Hclear) as (w1 & Hmk & Hdirs). rewrite Hmk.
  destruct (makedirs_effect _ _ _ _ Hmk) as (Hg & Hw & Hch).
  rewrite (adds_dirs_only_keeps _ _ _ _ Hg Hsrc).
  assert (∀ i, fs w1 !! frame_path (str dst) i = fs w !! frame_path (str dst) i)
    as Hsame.
  { intros i. apply Hch. intros k Hk. by apply frame_path_not_a_prefix. }
  assert (due (fs w1) (str dst) 0 frames = due (fs w) (str dst) 0 frames) as Hdue.
  { unfold due. apply filter_ext_elem. intros [j im] _. simpl. by rewrite Hsame. }
  destruct (frames_loop_run (str dst) frames 0 w1)
    as (w' & Hrun & Htr & Hkeep & _ & Hnew).
  exists w'. split_and!.
  - done.
  - rewrite Htr, writes_app, writes_Wrote, Hw, Hdue. f_equal.
    unfold w0, log. simpl. rewrite writes_app. simpl. by rewrite app_nil_r.
  - intros key n Hkey. apply Hkeep. by eapply adds_dirs_only_keeps.
  - intros j im Hj Hs Hm. apply (Hnew j im Hj Hs). by rewrite Hsame.
  - intros k Hk. apply Hkeep. by apply Hdirs.
Qed.

Lemma due_nil_when_all_there m folder frames :
  (∀ j im, frames !! j = Some im → selected j = true →
           is_Some (m !! frame_path folder j)) →
  due m folder 0 frames = [].
Proof.
  intros Hall. destruct (due m folder 0 frames) as [|[k im] rest] eqn:E; [done|].
  assert ((k, im) ∈ due m folder 0 frames) as Hin by (rewrite E; left).
  apply elem_of_due in Hin as (_ & Hl & Hs & Hm).
  rewrite Nat.sub_0_r in Hl. destruct (Hall k im Hl Hs) as [n Hn]. congruence.
Qed.

(** C5. On an output directory that holds some of the frame files
    already, [extract_frames] returns, keeps every entry of the file
    system as it was, writes exactly the selected frames whose file was
    missing, each after the test that nothing exists at its path, and
    leaves every selected frame with a file; running it again writes
    nothing and changes nothing. *)
Theorem rerun_writes_only_missing_frames src w frames dst :
  fs w !! src = Some (File (Mp4 frames)) →
  dst_folder_path src = Ok dst →
  clear_for_dirs (fs w) dst →
  ∃ w1,
    extract_frames src w = (w1, Ok tt) ∧
    (∀ p n, fs w !! p = Some n → fs w1 !! p = Some n) ∧
    writes (trace w1) =
      writes (trace w) ++ (frame_write (str dst) <$> due (fs w) (str dst) 0 frames) ∧
    (∀ p c, (p, c) ∈ frame_write (str dst) <$> due (fs w) (str dst) 0 frames →
            fs w !! p = None ∧ fs w1 !! p = Some (File c)) ∧
    (∀ i im, frames !! i = Some im → selected i = true →
             is_Some (fs w1 !! frame_path (str dst) i)) ∧
    extract_frames src w1 = (log (Printed ("Processing " +:+ src)) w1, Ok tt).
Proof.
  intros Hsrc Hdst Hclear.
  destruct (extract_frames_run src w frames dst Hsrc Hdst Hclear)
    as (w1 & Hrun & Htr & Hkeep & Hnew & Hdirs).
  assert (∀ i im, frames !! i = Some im → selected i = true →
                  is_Some (fs w1 !! frame_path (str dst) i)) as Hthere.
  { intros i im Hi Hs.
    destruct (fs w !! frame_path (str dst) i) as [n|] eqn:Hold.
    - exists n. by apply Hkeep.
    - eexists. by apply (Hnew i im). }
  exists w1. split_and!; try done.
  - intros p c ([k im] & [= -> ->] & Hin)%list_elem_of_fmap.
    apply elem_of_due in Hin as (_ & Hl & Hs & Hm). simpl.
    rewrite Nat.sub_0_r in Hl. split; [done|]. by apply Hnew.
  - rewrite extract_frames_steps. cbv zeta. rewrite Hdst.
    unfold Ok at 1. cbn beta iota.
    set (w2 := log (Printed ("Processing " +:+ src)) w1).
    unfold makedirs. rewrite (makedirs_from_noop _ _ [] w2) by (intros k Hk; by apply Hdirs).
    change (fs w2) with (fs w1). rewrite (Hkeep _ _ Hsrc).
    apply frames_loop_noop. change (fs w2) with (fs w1).
    by apply due_nil_when_all_there.
Qed.

Lemma rerun_writes_only_missing_frames_witness :
  ∃ w1,
    extract_frames sample_video sample_video_world = (w1, Ok tt) ∧
    (∀ p n, fs sample_video_world !! p = Some n → fs w1 !! p = Some n) ∧
    writes (trace w1) =
      writes (trace sample_video_world) ++
      (frame_write (str sample_images)
         <$> due (fs sample_video_world) (str sample_images) 0 sample_frames) ∧
    (∀ p c,
       (p, c) ∈ frame_write (str sample_images)
                  <$> due (fs sample_video_world) (str sample_images) 0
                        sample_frames →
       fs sample_video_world !! p = None ∧ fs w1 !! p = Some (File c)) ∧
    (∀ i im, sample_frames !! i = Some im → selected i = true →
             is_Some (fs w1 !! frame_path (str sample_images) i)) ∧
    extract_frames sample_video w1
    = (log (Printed ("Processing " +:+ sample_video)) w1, Ok tt).
Proof.
  apply (rerun_writes_only_missing_frames sample_video sample_video_world
           sample_frames sample_images).
  - vm_compute. reflexivity.
  - vm_compute. reflexivity.
  - apply (bool_decide_unpack _). vm_compute. exact I.
Defined.

Example rerun_sample :
  writes (trace (extract_frames sample_video sample_video_world).1)
  = [("/data/h36m/S1/Images/Walking.60457274/frame_000000.jpg", Jpg [0%Z]);
     ("/data/h36m/S1/Images/Walking.60457274/frame_000010.jpg", Jpg [10%Z])] ∧
  fs (extract_frames sample_video sample_video_world).1
    !! "/data/h36m/S1/Images/Walking.60457274/frame_000005.jpg"
  = Some (File (Blob [255; 216]%Z)).
Proof. vm_compute. done. Qed.

(** C2. [extract_frames] selects the frame with index [i] exactly when
    [i mod 5 = 0] or [i mod 64 = 0].  It writes a selected frame, under
    the name [frame_] followed by the index and [.jpg], when nothing
    exists at that path, and no path is written twice.  The index is
    written in decimal digits that read back to it: six of them, zeros
    in front, for an index below 10^6, and without a zero in front from
    10^6 on.  On an output directory without any of the frame files the
    indices written are exactly the selected ones below the number of
    frames; for 700 frames these are the 148 numbers
    {0, 5, ..., 695} ∪ {0, 64, ..., 640}, none of them twice. *)
Theorem frames_selected_by_stride src w frames dst :
  fs w !! src = Some (File (Mp4 frames)) →
  dst_folder_path src = Ok dst →
  clear_for_dirs (fs w) dst →
  ∃ w1,
    extract_frames src w = (w1, Ok tt) ∧
    let written := due (fs w) (str dst) 0 frames in
    writes (trace w1) = writes (trace w) ++ (frame_write (str dst) <$> written) ∧
    (∀ i, selected i = true ↔ i mod 5 = 0 ∨ i mod 64 = 0) ∧
    (∀ i, frame_path (str dst) i
          = os_path_join (str dst) ("frame_" +:+ format_06d i +:+ ".jpg")) ∧
    (∀ i, read_digits (format_06d i) = Some i ∧
          (i < 10 ^ 6 → String.length (format_06d i) = 6) ∧
          (10 ^ 6 ≤ i → ∃ c s, format_06d i = String c s ∧ c ≠ "0"%char)) ∧
    (format_06d 0 = "000000" ∧ format_06d 695 = "000695") ∧
    (∀ i im, (i, im) ∈ written ↔
             frames !! i = Some im ∧ selected i = true ∧
             fs w !! frame_path (str dst) i = None) ∧
    NoDup (frame_write (str dst) <$> written).*1 ∧
    ((∀ i, i < length frames → fs w !! frame_path (str dst) i = None) →
     written.*1 = sampled (length frames)) ∧
    (length frames = 700 →
     length (sampled (length frames)) = 148 ∧
     NoDup (sampled (length frames)) ∧
     list_to_set (sampled (length frames)) =@{gset nat}
       list_to_set ((fun k => 5 * k) <$> seq 0 140)
       ∪ list_to_set ((fun k => 64 * k) <$> seq 0 11)).
Proof.
  intros Hsrc Hdst Hclear.
  destruct (extract_frames_run src w frames dst Hsrc Hdst Hclear)
    as (w1 & Hrun & Htr & _).
  exists w1. split; [done|]. cbv zeta. split_and!.
  - done.
  - apply selected_iff.
  - done.
  - intros i. split_and!.
    + apply format_06d_read_back.
    + apply length_format_06d.
    + apply format_06d_unpadded.
  - vm_compute. reflexivity.
  - vm_compute. reflexivity.
  - intros i im. rewrite elem_of_due, Nat.sub_0_r. split.
    + by intros (_ & ? & ? & ?).
    + intros (? & ? & ?). split_and!; [lia | done | done | done].
  - rewrite frame_write_paths.
    apply NoDup_fmap_2; [apply _ | apply NoDup_due_indices].
  - intros Hfresh. apply due_fresh. intros k Hk. apply Hfresh. lia.
  - intros ->. split_and!.
    + vm_compute. reflexivity.
    + apply NoDup_sampled.
    + apply (bool_decide_unpack _). vm_compute. exact I.
Qed.

Lemma frames_selected_by_stride_witness :
  ∃ w1,
    extract_frames sample_video long_video_world = (w1, Ok tt) ∧
    let frames := (fun i => [Z.of_nat i]) <$> seq 0 700 in
    let written :=
      due (fs long_video_world) (str sample_images) 0 frames in
    writes (trace w1)
    = writes (trace long_video_world)
      ++ (frame_write (str sample_images) <$> written) ∧
    (∀ i, selected i = true ↔ i mod 5 = 0 ∨ i mod 64 = 0) ∧
    (∀ i, frame_path (str sample_images) i
          = os_path_join (str sample_images)
              ("frame_" +:+ format_06d i +:+ ".jpg")) ∧
    (∀ i, read_digits (format_06d i) = Some i ∧
          (i < 10 ^ 6 → String.length (format_06d i) = 6) ∧
          (10 ^ 6 ≤ i → ∃ c s, format_06d i = String c s ∧ c ≠ "0"%char)) ∧
    (format_06d 0 = "000000" ∧ format_06d 695 = "000695") ∧
    (∀ i im, (i, im) ∈ written ↔
             frames !! i = Some im ∧ selected i = true ∧
             fs long_video_world !! frame_path (str sample_images) i = None) ∧
    NoDup (frame_write (str sample_images) <$> written).*1 ∧
    ((∀ i, i < length frames →
           fs long_video_world !! frame_path (str sample_images) i = None) →
     written.*1 = sampled (length frames)) ∧
    (length frames = 700 →
     length (sampled (length frames)) = 148 ∧
     NoDup (sampled (length frames)) ∧
     list_to_set (sampled (length frames)) =@{gset nat}
       list_to_set ((fun k => 5 * k) <$> seq 0 140)
       ∪ list_to_set ((fun k => 64 * k) <$> seq 0 11)).
Proof.
  apply (frames_selected_by_stride sample_video long_video_world
           ((fun i => [Z.of_nat i]) <$> seq 0 700) sample_images).
  - vm_compute. reflexivity.
  - vm_compute. reflexivity.
  - apply (bool_decide_unpack _). vm_compute. exact I.
Defined.

Example long_video_writes_148 :
  length (writes (trace (extract_frames sample_video long_video_world).1)) = 148.
Proof. vm_compute. reflexivity. Qed.

(** ** main *)

(** C9. Without [DATA_ROOT] in the environment [main] prints the usage
    line and leaves with [sys.exit(1)]: the file system is as before and
    neither [glob] nor the pool has been used.  With [DATA_ROOT] set,
    [main] does not leave through [sys.exit]. *)
Theorem missing_DATA_ROOT_exits_before_any_work
    (glob : string → world → list string)
    (pool_map : (string → M unit) → list string → M unit)
    (junk : bbox) (environ : gmap string string) (w : world) :
  (environ !! "DATA_ROOT" = None →
   main glob pool_map junk environ w = (log (Printed usage) w, SystemExit 1) ∧
   fs (main glob pool_map junk environ w).1 = fs w ∧
   trace (main glob pool_map junk environ w).1 = trace w ++ [Printed usage] ∧
   (1 ≠ 0)%Z) ∧
  (is_Some (environ !! "DATA_ROOT") →
   ∀ code, (main glob pool_map junk environ w).2 ≠ SystemExit code).
Proof.
  unfold main. split.
  - intros ->. done.
  - intros [data_root ->] code.
    destruct (pool_map (extract_bounding_boxes junk) _ w) as [w1 [e|[]]]; [done|].
    destruct (pool_map extract_frames _ w1) as [w2 [e|[]]]; done.
Qed.

(** * Further properties of the code *)

(** ** The box and the layout of the mask *)

Lemma any_axis0_transpose a : any_axis0 (transpose a) = any_axis1 a.
Proof.
  unfold any_axis0, any_axis1. simpl. apply Forall_fmap_ext, Forall_forall.
  intros i Hi%elem_of_seq. apply existsb_seq_ext. intros j Hj.
  rewrite item_transpose by lia. done.
Qed.

Lemma any_axis1_transpose a : any_axis1 (transpose a) = any_axis0 a.
Proof.
  unfold any_axis0, any_axis1. simpl. apply Forall_fmap_ext, Forall_forall.
  intros j Hj%elem_of_seq. apply existsb_seq_ext. intros i Hi.
  rewrite item_transpose by lia. done.
Qed.

Lemma first_and_last_cases ix :
  first_and_last ix = raise IndexError ∨ ∃ x y, first_and_last ix = Ok (x, y).
Proof.
  unfold first_and_last. destruct (head ix), (last ix); eauto.
Qed.

(** X1. The box of the transposed array is the box of the array with
    left and top, and width and height, exchanged: line 38 decides which
    axis of the stored mask becomes x. *)
Theorem transposing_exchanges_box_axes a :
  ∃ b, bbox_of_mask a = Ok b ∧ bbox_of_mask (transpose a) = Ok (swap_axes b).
Proof.
  unfold bbox_of_mask, tight_box.
  rewrite any_axis0_transpose, any_axis1_transpose.
  destruct (first_and_last_cases (nonzero (any_axis0 a))) as [-> | (x0 & x1 & ->)];
    destruct (first_and_last_cases (nonzero (any_axis1 a))) as [-> | (y0 & y1 & ->)];
    simpl; eauto.
Qed.

(** X2. For a mask of at most 2^24 rows and columns the box is the
    smallest rectangle around the nonzero pixels: every rectangle that
    holds them all holds the box. *)
Theorem box_is_smallest_enclosing_rectangle m b (L T W H : Z) :
  (Z.of_nat (shape0 m) ≤ 2 ^ 24)%Z →
  (Z.of_nat (shape1 m) ≤ 2 ^ 24)%Z →
  bbox_of_mask m = Ok b →
  pixels m ≠ [] →
  (∀ r c, (r, c) ∈ pixels m →
          (L ≤ Z.of_nat c ≤ L + W - 1 ∧ T ≤ Z.of_nat r ≤ T + H - 1)%Z) →
  (L ≤ box_left b ∧ T ≤ box_top b ∧
   box_left b + box_width b ≤ L + W ∧
   box_top b + box_height b ≤ T + H)%Z.
Proof.
  intros Hrows Hcols Hb Hpx Hin.
  destruct (bbox_of_mask_nonempty m Hpx) as (c0 & c1 & r0 & r1 & Hs & _).
  rewrite (bbox_of_mask_spans_exact _ _ _ _ _ Hrows Hcols Hs) in Hb.
  injection Hb as <-. simpl.
  destruct Hs as (H0 & H1 & H2 & H3 & _).
  apply Exists_exists in H0 as ([a0 b0] & Hp0 & ?).
  apply Exists_exists in H1 as ([a1 b1] & Hp1 & ?).
  apply Exists_exists in H2 as ([a2 b2] & Hp2 & ?).
  apply Exists_exists in H3 as ([a3 b3] & Hp3 & ?).
  simplify_eq/=.
  pose proof (Hin _ _ Hp0). pose proof (Hin _ _ Hp1).
  pose proof (Hin _ _ Hp2). pose proof (Hin _ _ Hp3). lia.
Qed.

Lemma box_is_smallest_enclosing_rectangle_witness :
  (0 ≤ box_left (Box 1 1 3 2) ∧ 0 ≤ box_top (Box 1 1 3 2) ∧
   box_left (Box 1 1 3 2) + box_width (Box 1 1 3 2) ≤ 0 + 4 ∧
   box_top (Box 1 1 3 2) + box_height (Box 1 1 3 2) ≤ 0 + 3)%Z.
Proof.
  apply (box_is_smallest_enclosing_rectangle (transpose sample_region)
           (Box 1 1 3 2) 0 0 4 3).
  - vm_compute. discriminate.
  - vm_compute. discriminate.
  - vm_compute. reflexivity.
  - vm_compute. discriminate.
  - intros r c Hin. apply elem_of_pixels in Hin as (Hr & Hc & _).
    simpl in Hr, Hc. lia.
Defined.

(** ** What [np.empty] leaves behind *)

Lemma decode_loop_shape f refs :
  ∀ i,
    ∃ R : result (list bbox),
      (∀ rs, R = Ok rs → length rs = length refs) ∧
      ∀ bboxes,
        i + length refs ≤ length bboxes →
        decode_loop f i refs bboxes =
          match R with
          | inl e => inl e
          | inr rs => Ok (take i bboxes ++ rs ++ drop (i + length refs) bboxes)
          end.
Proof.
  induction refs as [|ref refs IH]; intros i.
  { exists (Ok []). split; [by intros rs [= <-]|]. intros bboxes _. simpl.
    by rewrite Nat.add_0_r, take_drop. }
  simpl decode_loop. destruct (deref f ref) as [e|obj].
  { exists (inl e). split; [done|]. done. }
  simpl. destruct (box_of_entry (transpose_nd obj)) as [e|row].
  { exists (inl e). split; [done|]. done. }
  simpl. destruct (IH (S i)) as (R & HR & Hrun). destruct R as [e|rs].
  - exists (inl e). split; [done|]. intros bboxes Hlen.
    rewrite Hrun by (rewrite length_insert; simpl in Hlen; lia). done.
  - exists (Ok (row :: rs)). split.
    { intros rs' [= <-]. simpl. f_equal. by apply HR. }
    intros bboxes Hlen. simpl in Hlen.
    rewrite Hrun by (rewrite length_insert; lia). f_equal.
    rewrite (take_S_r _ _ row) by (apply list_lookup_insert_eq; lia).
    rewrite take_insert_ge by lia. rewrite drop_insert_lt by lia.
    rewrite <- app_assoc, Nat.add_succ_r. done.
Qed.

(** X3. Nothing of the array that [np.empty] hands out survives the
    loop: what [decode] returns, rows or exception, does not depend on
    the contents of that array. *)
Theorem decode_overwrites_every_row junk junk' f :
  decode junk f = decode junk' f.
Proof.
  unfold decode. destruct (read_Masks f) as [e|refs]; [done|]. simpl.
  destruct (decode_loop_shape f refs 0) as (R & HR & Hrun).
  rewrite !Hrun by (by rewrite length_replicate).
  destruct R as [e|rs]; [done|]. simpl.
  rewrite !drop_ge by (by rewrite length_replicate). done.
Qed.

(** ** Runs of extract_bounding_boxes *)

(** X4. A path with fewer than three components has no [parents[2]]:
    the file is opened and all its masks are decoded, then line 47
    raises [IndexError], and nothing but the progress line is left. *)
Theorem short_path_loses_the_decoded_array junk src w f rows :
  fs w !! src = Some (File (Mat f)) →
  decode junk f = Ok rows →
  length (parts (Path src)) ≤ 2 →
  extract_bounding_boxes junk src w
  = (log (Printed ("Processing " +:+ src)) w, raise IndexError).
Proof.
  intros Hsrc Hdec Hlen. rewrite extract_bounding_boxes_steps. cbv zeta.
  rewrite Hsrc, Hdec. unfold dst_file_path, parents.
  destruct (decide _) as [Hlt|_]; [lia | done].
Qed.

Lemma short_path_loses_the_decoded_array_witness :
  extract_bounding_boxes degenerate short_src short_world
  = (log (Printed ("Processing " +:+ short_src)) short_world, raise IndexError).
Proof.
  apply (short_path_loses_the_decoded_array degenerate short_src short_world
           sample_h5 [Box 1 1 3 2; Box 0 0 0 0; Box 2 1 1 1]).
  - vm_compute. reflexivity.
  - vm_compute. reflexivity.
  - vm_compute. lia.
Defined.

Lemma adds_dirs_only_delete m m' key :
  adds_dirs_only m m' → adds_dirs_only (delete key m) (delete key m').
Proof.
  intros H key'. destruct (decide (key = key')) as [<- | Hne].
  - left. by rewrite !lookup_delete_eq.
  - rewrite !lookup_delete_ne by done. apply H.
Qed.

(** X5. Apart from its destination, [extract_bounding_boxes] changes no
    entry of the file system and removes none, however the run ends: it
    can only add directories.  When the destination cannot be derived
    the file system is left as it was. *)
Theorem array_run_touches_only_its_destination junk src w :
  match dst_file_path src with
  | inr dst =>
      adds_dirs_only
        (delete (str dst) (fs w))
        (delete (str dst) (fs (extract_bounding_boxes junk src w).1))
  | inl _ => fs (extract_bounding_boxes junk src w).1 = fs w
  end.
Proof.
  rewrite extract_bounding_boxes_steps. cbv zeta.
  set (w0 := log (Printed ("Processing " +:+ src)) w).
  destruct (dst_file_path src) as [e|dst] eqn:Hdst.
  { destruct (fs w !! src) as [[|[f| | | |]]|]; try done.
    by destruct (decode junk f). }
  assert (adds_dirs_only (delete (str dst) (fs w)) (delete (str dst) (fs w0)))
    as Hrefl by apply adds_dirs_only_refl.
  destruct (fs w !! src) as [[|[f| | | |]]|]; try done.
  destruct (decode junk f) as [e|rows]; [done|].
  destruct (makedirs (parent dst) w0) as [w1 [e|[]]] eqn:Hmk;
    destruct (makedirs_effect _ _ _ _ Hmk) as (Hg & _ & _).
  { by apply adds_dirs_only_delete. }
  unfold np_save.
  destruct (write_file (str dst) (Npy rows) w1) as [w2 res] eqn:Hwr.
  destruct (write_file_effect _ _ _ _ _ Hwr)
    as [(_ & Hfs & _ & _) | (_ & -> & _)]; simpl.
  - rewrite Hfs, delete_insert_eq. by apply adds_dirs_only_delete.
  - by apply adds_dirs_only_delete.
Qed.

Lemma makedirs_from_made r todo :
  ∀ above w w',
    makedirs_from r above todo w = (w', Ok tt) →
    ∀ k, 1 ≤ k ≤ length todo →
         fs w' !! str {| root := r; parts := above ++ take k todo |} = Some Dir.
Proof.
  induction todo as [|c todo IH]; intros above w w' Hrun k Hk;
    [simpl in Hk; lia|].
  simpl in Hrun.
  set (here := str {| root := r; parts := above ++ [c] |}) in *.
  assert (above ++ take k (c :: todo) =
          match k with
          | 0 => above
          | S k' => (above ++ [c]) ++ take k' todo
          end) as Hshift.
  { destruct k; simpl; [by rewrite app_nil_r | by rewrite <- app_assoc]. }
  destruct (fs w !! here) as [[|content]|] eqn:Hhere; [| done |].
  - destruct k as [|[|k]]; [lia | |].
    + simpl. rewrite take_0. fold here.
      destruct (makedirs_from_effect _ _ _ _ _ _ Hrun) as (Hg & _).
      by eapply adds_dirs_only_keeps.
    + rewrite Hshift. eapply IH; [exact Hrun|]. simpl in Hk. lia.
  - destruct k as [|[|k]]; [lia | |].
    + simpl. rewrite take_0. fold here.
      destruct (makedirs_from_effect _ _ _ _ _ _ Hrun) as (Hg & _).
      eapply adds_dirs_only_keeps; [exact Hg|]. simpl.
      by rewrite lookup_insert_eq.
    + rewrite Hshift. eapply IH; [exact Hrun|]. simpl in Hk. lia.
Qed.

(** X6. Running [extract_bounding_boxes] again on the same file leaves
    the file system as the first run left it: the array is saved over
    itself and no directory is missing. *)
Theorem array_rerun_changes_nothing junk src w w1 :
  extract_bounding_boxes junk src w = (w1, Ok tt) →
  (∀ dst, dst_file_path src = Ok dst → str dst ≠ src) →
  ∃ w2, extract_bounding_boxes junk src w1 = (w2, Ok tt) ∧ fs w2 = fs w1.
Proof.
  rewrite !extract_bounding_boxes_steps. cbv zeta.
  set (w0 := log (Printed ("Processing " +:+ src)) w).
  set (w0' := log (Printed ("Processing " +:+ src)) w1).
  destruct (fs w !! src) as [[|[f| | | |]]|] eqn:Hsrc; try done.
  destruct (decode junk f) as [e|rows] eqn:Hdec; [done|].
  destruct (dst_file_path src) as [e|dst] eqn:Hdst; [done|].
  destruct (makedirs (parent dst) w0) as [wm [e|[]]] eqn:Hmk; [done|].
  intros Hsave Hne. specialize (Hne dst eq_refl).
  destruct (makedirs_effect _ _ _ _ Hmk) as (Hg & _ & _).
  destruct (write_file_effect _ _ _ _ _ Hsave)
    as [(_ & Hfs & _ & Hnodir) | (? & _)]; [|done].
  assert (fs w1 !! src = Some (File (Mat f))) as Hsrc1.
  { rewrite Hfs, lookup_insert_ne by done. by eapply adds_dirs_only_keeps. }
  rewrite Hsrc1, Hdec.
  assert (makedirs (parent dst) w0' = (w0', Ok tt)) as ->.
  { apply makedirs_from_noop. intros k Hk. change (fs w0') with (fs w1).
    pose proof (makedirs_from_made _ _ _ _ _ Hmk k Hk) as Hdir.
    rewrite Hfs, lookup_insert_ne; [done|]. intros E. rewrite <- E in Hdir.
    congruence. }
  assert (fs w1 !! str dst = Some (File (Npy rows))) as Hthere
    by (rewrite Hfs; apply lookup_insert_eq).
  unfold np_save, write_file. change (fs w0') with (fs w1). rewrite Hthere.
  eexists. split; [done|]. simpl. by apply insert_id.
Qed.

Lemma array_rerun_changes_nothing_witness :
  ∃ w2,
    extract_bounding_boxes degenerate sample_src
      (extract_bounding_boxes degenerate sample_src sample_world).1
    = (w2, Ok tt) ∧
    fs w2 = fs (extract_bounding_boxes degenerate sample_src sample_world).1.
Proof.
  apply (array_rerun_changes_nothing degenerate sample_src sample_world).
  - vm_compute. reflexivity.
  - intros dst Hdst. vm_compute in Hdst. injection Hdst as <-.
    vm_compute. discriminate.
Defined.

(** ** Runs of extract_frames *)

(** X7. However a run of [extract_frames] ends, every entry the file
    system had is still there and unchanged: the function only adds
    directories and frame files. *)
Theorem frames_run_keeps_every_entry src w :
  fs w ⊆ fs (extract_frames src w).1.
Proof.
  apply map_subseteq_spec. intros key n Hkey.
  rewrite extract_frames_steps. cbv zeta.
  set (w0 := log (Printed ("Processing " +:+ src)) w).
  destruct (dst_folder_path src) as [e|dst]; [done|].
  destruct (makedirs dst w0) as [w1 [e|[]]] eqn:Hmk;
    destruct (makedirs_effect _ _ _ _ Hmk) as (Hg & _ & _);
    pose proof (adds_dirs_only_keeps _ _ _ _ Hg Hkey) as Hkey1; [done|].
  destruct (fs w1 !! src) as [[|[f|frames| | |]]|]; try done.
  destruct (frames_loop_run (str dst) frames 0 w1) as (w' & -> & _ & Hkeep & _).
  by apply Hkeep.
Qed.

(** X8. The output directory is made before the video is opened: when
    [src] is not a readable video the run raises, no frame is written,
    and the directory for the frames exists all the same. *)
Theorem unreadable_video_leaves_an_empty_folder src w dst :
  dst_folder_path src = Ok dst →
  clear_for_dirs (fs w) dst →
  (∀ frames, fs w !! src ≠ Some (File (Mp4 frames))) →
  ∃ w' e,
    extract_frames src w = (w', raise e) ∧
    (e = FileNotFoundError ∨ e = OSError) ∧
    writes (trace w') = writes (trace w) ∧
    (parts dst ≠ [] → fs w' !! str dst = Some Dir).
Proof.
  intros Hdst Hclear Hnot. rewrite extract_frames_steps. cbv zeta.
  rewrite Hdst. unfold Ok at 1. cbn beta iota.
  set (w0 := log (Printed ("Processing " +:+ src)) w).
  destruct (makedirs_ok dst w0 Hclear) as (w1 & Hmk & Hdirs). rewrite Hmk.
  destruct (makedirs_effect _ _ _ _ Hmk) as (Hg & Hw & _).
  assert (writes (trace w1) = writes (trace w)) as Hw1.
  { rewrite Hw. unfold w0, log. simpl. rewrite writes_app. simpl.
    by rewrite app_nil_r. }
  assert (parts dst ≠ [] → fs w1 !! str dst = Some Dir) as Hdir.
  { intros Hne. specialize (Hdirs (length (parts dst))).
    rewrite take_ge in Hdirs by done. destruct dst as [r ps]. apply Hdirs.
    simpl in *. destruct ps; [done | simpl; lia]. }
  destruct (Hg src) as [Esrc | [_ Esrc]]; rewrite Esrc.
  - change (fs w0) with (fs w).
    destruct (fs w !! src) as [[|[f|frames| | |]]|] eqn:Hsrc;
      try (eexists _, _; split_and!; [done | by (left + right) | done | done]).
    by destruct (Hnot frames).
  - eexists _, _. split_and!; [done | by right | done | done].
Qed.

Lemma unreadable_video_leaves_an_empty_folder_witness :
  ∃ w' e,
    extract_frames sample_video no_video_world = (w', raise e) ∧
    (e = FileNotFoundError ∨ e = OSError) ∧
    writes (trace w') = writes (trace no_video_world) ∧
    (parts sample_images ≠ [] → fs w' !! str sample_images = Some Dir).
Proof.
  apply (unreadable_video_leaves_an_empty_folder sample_video no_video_world
           sample_images).
  - vm_compute. reflexivity.
  - apply (bool_decide_unpack _). vm_compute. exact I.
  - intros frames. vm_compute. discriminate.
Defined.

Lemma due_indices_sorted m folder reader :
  ∀ s, StronglySorted lt (due m folder s reader).*1.
Proof.
  induction reader as [|im rest IH]; intros s.
  { unfold due. simpl. constructor. }
  rewrite due_cons. destruct (decide _); [|apply IH].
  rewrite fmap_cons. constructor; [apply IH|]. simpl.
  apply Forall_forall. intros k ([k' im'] & -> & Hin)%list_elem_of_fmap.
  apply due_index in Hin. simpl. lia.
Qed.

(** X9. The frames are written in the order of the video: the indices
    of the files a run writes, in the order of the writes, increase
    strictly, and each file holds the frame of its index. *)
Theorem frames_written_in_index_order src w frames dst :
  fs w !! src = Some (File (Mp4 frames)) →
  dst_folder_path src = Ok dst →
  clear_for_dirs (fs w) dst →
  ∃ w1 written,
    extract_frames src w = (w1, Ok tt) ∧
    writes (trace w1) = writes (trace w) ++ (frame_write (str dst) <$> written) ∧
    StronglySorted lt written.*1 ∧
    Forall (fun p => frames !! p.1 = Some p.2) written.
Proof.
  intros Hsrc Hdst Hclear.
  destruct (extract_frames_run src w frames dst Hsrc Hdst Hclear)
    as (w1 & Hrun & Htr & _).
  exists w1, (due (fs w) (str dst) 0 frames). split_and!; [done | done | |].
  - apply due_indices_sorted.
  - apply Forall_forall. intros [k im] Hin.
    apply elem_of_due in Hin as (_ & Hl & _). by rewrite Nat.sub_0_r in Hl.
Qed.

Lemma frames_written_in_index_order_witness :
  ∃ w1 written,
    extract_frames sample_video sample_video_world = (w1, Ok tt) ∧
    writes (trace w1)
    = writes (trace sample_video_world)
      ++ (frame_write (str sample_images) <$> written) ∧
    StronglySorted lt written.*1 ∧
    Forall (fun p => sample_frames !! p.1 = Some p.2) written.
Proof.
  apply (frames_written_in_index_order sample_video sample_video_world
           sample_frames sample_images).
  - vm_compute. reflexivity.
  - vm_compute. reflexivity.
  - apply (bool_decide_unpack _). vm_compute. exact I.
Defined.

(** ** Where the frames go *)

Lemma rfind_dot_none s : has_dot s = false → rfind_dot s = None.
Proof.
  induction s as [|c s IH]; [done|]. simpl.
  intros [Hc Hs]%orb_false_elim. by rewrite (IH Hs), Hc.
Qed.

Lemma rfind_dot_suffix base ext :
  has_dot ext = false →
  rfind_dot (base +:+ "." +:+ ext) = Some (String.length base).
Proof.
  intros Hext. induction base as [|c base IH].
  - rewrite app_empty_l, app_cons, app_empty_l. simpl.
    by rewrite (rfind_dot_none _ Hext).
  - rewrite app_cons. simpl. by rewrite IH.
Qed.

Lemma path_root_no_slash s : has_slash s = false → path_root s = "".
Proof.
  destruct s as [|c s]; [done|]. simpl. intros [Hc _]%orb_false_elim.
  by destruct c as [[] [] [] [] [] [] [] []].
Qed.

Lemma Path_single b :
  has_slash b = false → is_part b → Path b = {| root := ""; parts := [b] |}.
Proof.
  intros Hs Hp. unfold Path.
  rewrite (path_root_no_slash _ Hs), (split_slash_no_slash _ Hs).
  by rewrite filter_cons_True by done.
Qed.

Lemma Path_parts_no_slash s :
  Forall (fun c => has_slash c = false) (parts (Path s)).
Proof.
  apply Forall_forall. intros c [_ Hin]%list_elem_of_filter.
  pose proof (split_slash_parts s) as Hall. rewrite Forall_forall in Hall.
  by apply Hall.
Qed.

Lemma dst_folder_path_parts src r ps d0 base ext :
  Path src = {| root := r; parts := ps ++ [d0; base +:+ "." +:+ ext] |} →
  is_part base →
  has_dot ext = false →
  ext ≠ "" →
  dst_folder_path src = Ok {| root := r; parts := ps ++ ["Images"; base] |}.
Proof.
  intros HP Hbase Hext Hne.
  assert (has_slash base = false) as Hslash.
  { pose proof (Path_parts_no_slash src) as Hall. rewrite HP in Hall. simpl in Hall.
    rewrite Forall_forall in Hall.
    assert (has_slash (base +:+ "." +:+ ext) = false) as H.
    { apply Hall. apply elem_of_app. right. right. left. }
    rewrite has_slash_app in H. by apply orb_false_elim in H as [H _]. }
  unfold dst_folder_path, parents, stem, name. rewrite HP. simpl.
  rewrite length_app. simpl. destruct (decide _) as [_|Hn]; [|lia]. simpl.
  replace (length ps + 2 - 2) with (length ps) by lia.
  rewrite take_app_length.
  change (ps ++ [d0; base +:+ "." +:+ ext])
    with (ps ++ [d0] ++ [base +:+ "." +:+ ext]).
  rewrite !app_assoc, last_snoc. simpl.
  rewrite (rfind_dot_suffix _ _ Hext).
  rewrite bool_decide_true.
  - rewrite substring_app_prefix. unfold truediv at 2.
    change (Path "Images") with {| root := ""; parts := ["Images"] |}.
    simpl. unfold truediv. rewrite (Path_single _ Hslash Hbase). simpl.
    by rewrite <- app_assoc.
  - rewrite !length_app_string. simpl.
    destruct Hbase as [Hb _]. destruct base; [done|].
    destruct ext; [done|]. simpl. lia.
Qed.

(** X10. For a video whose path ends in [d0/base.ext], [ext] being the
    part of the name after its last dot, the frames go to the directory
    [Images/base] beside [d0]. *)
Theorem frame_folder_is_Images_over_stem src r ps d0 base ext :
  Path src = {| root := r; parts := ps ++ [d0; base +:+ "." +:+ ext] |} →
  is_part base →
  has_dot ext = false →
  ext ≠ "" →
  dst_folder_path src = Ok {| root := r; parts := ps ++ ["Images"; base] |}.
Proof. apply dst_folder_path_parts. Qed.

Lemma frame_folder_is_Images_over_stem_witness :
  dst_folder_path sample_video
  = Ok {| root := "/";
          parts := ["data"; "h36m"; "S1"] ++ ["Images"; "Walking.60457274"] |}.
Proof.
  apply (frame_folder_is_Images_over_stem sample_video "/"
           ["data"; "h36m"; "S1"] "Videos" "Walking.60457274" "mp4").
  - vm_compute. reflexivity.
  - split; discriminate.
  - reflexivity.
  - discriminate.
Defined.

(** ** Frame names *)

(** X11. The digits in a frame name are at least six and read back to
    the index of the frame, so two frames of one video never share a
    file. *)
Theorem frame_name_reads_back_to_its_index folder i :
  read_digits (format_06d i) = Some i ∧
  6 ≤ String.length (format_06d i) ∧
  ∀ j, frame_path folder i = frame_path folder j → i = j.
Proof.
  split_and!.
  - apply format_06d_read_back.
  - unfold format_06d. rewrite length_app_string, length_zeros. lia.
  - intros j. apply frame_path_inj.
Qed.

(** ** The stride *)

Lemma selected_period i : selected (i + 320) = selected i.
Proof.
  unfold selected.
  replace (i + 320) with (i + 64 * 5) at 1 by lia.
  replace (i + 320) with (i + 5 * 64) by lia.
  by rewrite !Nat.Div0.mod_add.
Qed.

Lemma count_selected_window s :
  length (filter (fun i => selected i = true) (seq s 320)) = 68.
Proof.
  induction s as [|s IH]; [vm_compute; reflexivity|].
  etrans; [|exact IH].
  change (seq s 320) with (s :: seq (S s) 319).
  replace (seq (S s) 320) with (seq (S s) 319 ++ [S s + 319])
    by (by rewrite <- seq_S).
  rewrite filter_app, filter_cons, length_app.
  replace (S s + 319) with (s + 320) by lia.
  rewrite filter_cons, filter_nil.
  destruct (decide (selected (s + 320) = true)) as [H|H];
    rewrite selected_period in H;
    destruct (decide (selected s = true)); try done; simpl; lia.
Qed.

(** X12. The two tests of line 61 hold together exactly at the
    multiples of 320, the choice repeats every 320 frames, and of any
    320 frames in a row 68 are chosen. *)
Theorem stride_repeats_every_320_frames i :
  (i mod 5 = 0 ∧ i mod 64 = 0 ↔ i mod 320 = 0) ∧
  selected (i + 320) = selected i ∧
  length (filter (fun k => selected k = true) (seq i 320)) = 68.
Proof.
  split_and!.
  - pose proof (Nat.Div0.div_mod i 5). pose proof (Nat.Div0.div_mod i 64).
    pose proof (Nat.Div0.div_mod i 320).
    pose proof (Nat.mod_upper_bound i 5). pose proof (Nat.mod_upper_bound i 64).
    pose proof (Nat.mod_upper_bound i 320). lia.
  - apply selected_period.
  - apply count_selected_window.
Qed.

(** ** Outputs of different inputs *)









Example different_extensions_share_an_array_file :
  dst_file_path "/data/h36m/S1/MySegmentsMat/ground_truth_bb/ab.mat"
  = dst_file_path "/data/h36m/S1/MySegmentsMat/ground_truth_bb/abc.h5".
Proof. vm_compute. reflexivity. Qed.

(** ** The progress line *)

Lemma makedirs_from_trace r todo :
  ∀ above w w' res,
    makedirs_from r above todo w = (w', res) →
    ∃ evs, trace w' = trace w ++ evs ∧ Forall silent evs.
Proof.
  induction todo as [|c todo IH]; intros above w w' res; simpl.
  - intros [= <- <-]. exists []. by rewrite app_nil_r.
  - destruct (fs w !! _) as [[|content]|].
    + apply IH.
    + intros [= <- <-]. exists []. by rewrite app_nil_r.
    + intros Hrun. destruct (IH _ _ _ _ Hrun) as (evs & Htr & Hq).
      simpl in Htr. eexists (_ :: evs). rewrite Htr, <- app_assoc.
      split; [done|]. by constructor.
Qed.

(** X14. Each of the two functions prints the line [Processing] with its
    path before anything else, whatever follows, and prints nothing
    more. *)
Theorem progress_line_comes_first_and_once junk src w :
  (∃ evs,
     trace (extract_bounding_boxes junk src w).1
     = trace w ++ Printed ("Processing " +:+ src) :: evs ∧
     Forall silent evs) ∧
  (∃ evs,
     trace (extract_frames src w).1
     = trace w ++ Printed ("Processing " +:+ src) :: evs ∧
     Forall silent evs).
Proof.
  set (w0 := log (Printed ("Processing " +:+ src)) w).
  assert (∀ w' evs, trace w' = trace w0 ++ evs →
                    trace w' = trace w ++ Printed ("Processing " +:+ src) :: evs)
    as Hfrom0.
  { intros w' evs ->. unfold w0, log. simpl. by rewrite <- app_assoc. }
  assert (∃ evs, trace w0 = trace w ++ Printed ("Processing " +:+ src) :: evs ∧
                 Forall silent evs) as Hstop.
  { exists []. split; [done | constructor]. }
  split.
  - rewrite extract_bounding_boxes_steps. cbv zeta. fold w0.
    destruct (fs w !! src) as [[|[f| | | |]]|]; try exact Hstop.
    destruct (decode junk f) as [e|rows]; [exact Hstop|].
    destruct (dst_file_path src) as [e|dst]; [exact Hstop|].
    destruct (makedirs (parent dst) w0) as [w1 [e|[]]] eqn:Hmk;
      destruct (makedirs_from_trace _ _ _ _ _ _ Hmk) as (evs & Htr & Hq).
    { exists evs. split; [by apply Hfrom0 | done]. }
    unfold np_save.
    destruct (write_file (str dst) (Npy rows) w1) as [w2 res] eqn:Hwr.
    destruct (write_file_effect _ _ _ _ _ Hwr)
      as [(_ & _ & Htr2 & _) | (_ & -> & _)]; simpl.
    + exists (evs ++ [Wrote (str dst) (Npy rows)]). split.
      * apply Hfrom0. by rewrite Htr2, Htr, <- app_assoc.
      * apply Forall_app. split; [done|]. by repeat constructor.
    + exists evs. split; [by apply Hfrom0 | done].
  - rewrite extract_frames_steps. cbv zeta. fold w0.
    destruct (dst_folder_path src) as [e|dst]; [exact Hstop|].
    destruct (makedirs dst w0) as [w1 [e|[]]] eqn:Hmk;
      destruct (makedirs_from_trace _ _ _ _ _ _ Hmk) as (evs & Htr & Hq).
    { exists evs. split; [by apply Hfrom0 | done]. }
    destruct (fs w1 !! src) as [[|[f|frames| | |]]|];
      try (exists evs; split; [by apply Hfrom0 | done]).
    destruct (frames_loop_run (str dst) frames 0 w1) as (w' & -> & Htr' & _).
    simpl. eexists (evs ++ _). split.
    + apply Hfrom0. by rewrite Htr', Htr, <- app_assoc.
    + apply Forall_app. split; [done|]. apply Forall_fmap, Forall_forall.
      by intros p _.
Qed.

(** ** Values of the mask *)

Lemma item_map_values g a i j :
  g 0%Z = 0%Z → item (map_values g a) i j = g (item a i j).
Proof.
  intros Hg. unfold item. simpl. rewrite list_lookup_fmap.
  by destruct (buf a !! _).
Qed.

(** X15. Only the difference between zero and nonzero counts: a change
    of the values of a mask that keeps zero, and only zero, at zero
    leaves its box as it was. *)
Theorem box_ignores_the_values_of_the_mask (g : Z → Z) m :
  (∀ z, g z = 0%Z ↔ z = 0%Z) →
  bbox_of_mask (map_values g m) = bbox_of_mask m.
Proof.
  intros Hg.
  assert (g 0%Z = 0%Z) as Hg0 by (by apply Hg).
  assert (∀ i j, truthy (item (map_values g m) i j) = truthy (item m i j)) as Ht.
  { intros i j. rewrite item_map_values by done. apply eq_true_iff_eq.
    rewrite !truthy_true. by rewrite Hg. }
  unfold bbox_of_mask, tight_box.
  assert (any_axis0 (map_values g m) = any_axis0 m) as ->.
  { unfold any_axis0. simpl. apply Forall_fmap_ext, Forall_forall.
    intros j _. apply existsb_seq_ext. intros i _. apply Ht. }
  assert (any_axis1 (map_values g m) = any_axis1 m) as ->.
  { unfold any_axis1. simpl. apply Forall_fmap_ext, Forall_forall.
    intros i _. apply existsb_seq_ext. intros j _. apply Ht. }
  done.
Qed.

Lemma box_ignores_the_values_of_the_mask_witness :
  bbox_of_mask (map_values (fun z => 255 * z)%Z (transpose sample_region))
  = bbox_of_mask (transpose sample_region).
Proof.
  apply (box_ignores_the_values_of_the_mask (fun z => 255 * z)%Z).
  intros z. lia.
Defined.
